(** * energy_plus_wrapper: installer manager and report converter

    A shallow embedding of [energyplus_wrapper/env_manager.py] and
    [energyplus_wrapper/utils.py].  Python [str] values are modelled by
    [string] (for text read from a file: its UTF-8 encoding), a [dict] by
    stdpp's [gmap], exceptions by the [result] type, and side effects
    (warnings, file system, network, the installer's pseudo-terminal) by an
    explicit state threaded through a small state-and-exception monad. *)

From Stdlib Require Import String Ascii List NArith Bool Lia.
From stdpp Require Import base option gmap strings list.

Local Open Scope string_scope.
Set Warnings "-register-all".

(** ** Exceptions and the state-and-exception monad *)

Inductive exn : Type :=
| ValueError (msg : string)
| AttributeError
| TypeError
| UnicodeDecodeError
| ParserError
| FileNotFoundError
| FileExistsError
| NotADirectoryError
| IsADirectoryError
| ExpectTimeout
| ExpectEOF.

Inductive result (A : Type) : Type :=
| Ok (a : A)
| Raise (e : exn).
Arguments Ok {A} a.
Arguments Raise {A} e.

(** A computation reads and writes a state [W]; an exception leaves the
    state as it was when it was raised. *)
Definition M (W A : Type) : Type := W -> result A * W.

Definition ret {W A} (a : A) : M W A := fun w => (Ok a, w).
Definition raise {W A} (e : exn) : M W A := fun w => (Raise e, w).
Definition bind {W A B} (c : M W A) (k : A -> M W B) : M W B :=
  fun w => match c w with
           | (Ok a, w') => k a w'
           | (Raise e, w') => (Raise e, w')
           end.
Definition get {W} : M W W := fun w => (Ok w, w).
Definition modify {W} (f : W -> W) : M W unit := fun w => (Ok tt, f w).
Definition lift {W A} (r : result A) : M W A := fun w => (r, w).

(** [try: c except Exception: h] *)
Definition try_except {W A} (c : M W A) (h : exn -> M W A) : M W A :=
  fun w => match c w with
           | (Ok a, w') => (Ok a, w')
           | (Raise e, w') => h e w'
           end.

(** [try: ... finally: f] (also the exit of a [with] block). *)
Definition finally {W A} (c : M W A) (f : M W unit) : M W A :=
  fun w => match c w with
           | (r, w') => match f w' with
                        | (Ok _, w'') => (r, w'')
                        | (Raise e, w'') => (Raise e, w'')
                        end
           end.

Notation "'do' x <- c ; k" := (bind c (fun x => k))
  (at level 10, x name, c at level 100, k at level 200,
   format "'[v' 'do'  x  <-  c ; '/' k ']'").
Notation "'run' c ; k" := (bind c (fun _ => k))
  (at level 10, c at level 100, k at level 200,
   format "'[v' 'run'  c ; '/' k ']'").

(** [for x in xs: body x] *)
Fixpoint for_each {W A} (body : A -> M W unit) (xs : list A) : M W unit :=
  match xs with
  | [] => ret tt
  | x :: xs' => run body x; for_each body xs'
  end.

(** ** Python string methods *)

Module PyStr.

(** [s.startswith(p)] *)
Definition startswith (p s : string) : bool := String.prefix p s.

(** [p in s] *)
Fixpoint contains (p s : string) : bool :=
  startswith p s ||
  match s with
  | "" => false
  | String _ s' => contains p s'
  end.

(** [s.endswith(p)] *)
Fixpoint endswith (p s : string) : bool :=
  String.eqb p s ||
  match s with
  | "" => false
  | String _ s' => endswith p s'
  end.

(** [s.replace(old, new)] for a non-empty [old]: the occurrences of [old]
    are replaced from left to right, without overlap.  [skip] counts the
    characters of a matched occurrence that are still to be dropped. *)
Fixpoint replace_go (old new : string) (skip : nat) (s : string) : string :=
  match s with
  | "" => ""
  | String c s' =>
      match skip with
      | S k => replace_go old new k s'
      | O =>
          if startswith old s
          then new +:+ replace_go old new (String.length old - 1) s'
          else String c (replace_go old new 0 s')
      end
  end.

Definition replace (old new s : string) : string := replace_go old new 0 s.

Definition lower_char (c : ascii) : ascii :=
  let n := N_of_ascii c in
  if (65 <=? n)%N && (n <=? 90)%N then ascii_of_N (n + 32) else c.

(** [s.lower()] on ASCII text *)
Fixpoint lower (s : string) : string :=
  match s with
  | "" => ""
  | String c s' => String (lower_char c) (lower s')
  end.

(** Python's white space on ASCII text: space, tab, LF, VT, FF, CR and
    the separators FS, GS, RS, US. *)
Definition is_space (c : ascii) : bool :=
  let n := N_of_ascii c in
  (n =? 32)%N || ((9 <=? n)%N && (n <=? 13)%N) || ((28 <=? n)%N && (n <=? 31)%N).

Fixpoint lstrip (s : string) : string :=
  match s with
  | "" => ""
  | String c s' => if is_space c then lstrip s' else s
  end.

Fixpoint rstrip (s : string) : string :=
  match s with
  | "" => ""
  | String c s' =>
      match rstrip s' with
      | "" => if is_space c then "" else String c ""
      | r => String c r
      end
  end.

(** [s.strip()], for the white space of ASCII: the white space beyond it
    (such as U+00A0), which Python removes too, is left in place here. *)
Definition strip (s : string) : string := rstrip (lstrip s).

(** [s.rfind(c)] for a single character *)
Fixpoint rfind_char (c : ascii) (s : string) : option nat :=
  match s with
  | "" => None
  | String a s' =>
      match rfind_char c s' with
      | Some i => Some (S i)
      | None => if Ascii.eqb a c then Some 0 else None
      end
  end.

Fixpoint all_char (c : ascii) (s : string) : bool :=
  match s with
  | "" => true
  | String a s' => Ascii.eqb a c && all_char c s'
  end.

(** [os.path.splitext] on a name without directory separator: the
    extension starts at the last dot, unless only dots come before it. *)
Definition splitext (p : string) : string * string :=
  match rfind_char "." p with
  | Some i =>
      if all_char "." (substring 0 i p) then (p, "")
      else (substring 0 i p, substring i (String.length p - i) p)
  | None => (p, "")
  end.

(** [Path.stripext] *)
Definition stripext (p : string) : string := fst (splitext p).

End PyStr.

(** ** Text files *)

Module TextIO.

Definition byte_in (lo hi : N) (c : ascii) : bool :=
  let n := N_of_ascii c in (lo <=? n)%N && (n <=? hi)%N.

Definition cont (c : ascii) : bool := byte_in 128 191 c.

(** Strict UTF-8 well-formedness (no overlong form, no surrogate,
    nothing above U+10FFFF), as the [utf-8] codec with [errors='strict']
    checks it. *)
Fixpoint utf8_valid (bs : string) : bool :=
  match bs with
  | "" => true
  | String b r =>
      if byte_in 0 127 b then utf8_valid r
      else if byte_in 194 223 b then
        match r with
        | String b1 r1 => cont b1 && utf8_valid r1
        | _ => false
        end
      else if byte_in 224 239 b then
        match r with
        | String b1 (String b2 r2) =>
            (if byte_in 224 224 b then byte_in 160 191 b1
             else if byte_in 237 237 b then byte_in 128 159 b1
             else cont b1)
            && cont b2 && utf8_valid r2
        | _ => false
        end
      else if byte_in 240 244 b then
        match r with
        | String b1 (String b2 (String b3 r3)) =>
            (if byte_in 240 240 b then byte_in 144 191 b1
             else if byte_in 244 244 b then byte_in 128 143 b1
             else cont b1)
            && cont b2 && cont b3 && utf8_valid r3
        | _ => false
        end
      else false
  end.

(** [bytes.decode('utf-8')]: the text is represented by its encoding. *)
Definition utf8_decode (bs : string) : result string :=
  if utf8_valid bs then Ok bs else Raise UnicodeDecodeError.

(** Universal newlines of text mode: CR LF and a lone CR read as LF. *)
Fixpoint universal_newlines (s : string) : string :=
  match s with
  | "" => ""
  | String c s' =>
      if Ascii.eqb c "013" then
        match s' with
        | String c' s'' =>
            if Ascii.eqb c' "010" then String "010" (universal_newlines s'')
            else String "010" (universal_newlines s')
        | "" => String "010" ""
        end
      else String c (universal_newlines s')
  end.

(** [open(p).read()] on a file holding the bytes [bs]. *)
Definition read_text (bs : string) : result string :=
  match utf8_decode bs with
  | Ok s => Ok (universal_newlines s)
  | Raise e => Raise e
  end.

End TextIO.

(** ** Regular expressions (the fragment of [re] the two modules use) *)

Module Re.

(** The matcher below is that of [re] on ASCII text, where a character
    is a byte: on a [str] with characters beyond ASCII, [\d] and [\w] are
    the Unicode classes and [.] takes a whole code point, which this
    model does not follow.  What is stated of the matcher about a subject
    it did not construct is stated for [is_ascii] subjects. *)
Fixpoint is_ascii (s : string) : bool :=
  match s with
  | "" => true
  | String c s' => (N_of_ascii c <? 128)%N && is_ascii s'
  end.

(** Character classes, on ASCII text. *)
Inductive cls : Type :=
| Dot      (* [.]  : anything but a line feed *)
| DotAll   (* [.]  under [re.DOTALL] *)
| Digit    (* [\d] *)
| Word.    (* [\w] *)

Definition is_digit (c : ascii) : bool :=
  let n := N_of_ascii c in (48 <=? n)%N && (n <=? 57)%N.

Definition is_word (c : ascii) : bool :=
  let n := N_of_ascii c in
  is_digit c || ((65 <=? n)%N && (n <=? 90)%N)
  || ((97 <=? n)%N && (n <=? 122)%N) || (n =? 95)%N.

Definition in_cls (k : cls) (c : ascii) : bool :=
  match k with
  | Dot => negb (Ascii.eqb c "010")
  | DotAll => true
  | Digit => is_digit c
  | Word => is_word c
  end.

Inductive re : Type :=
| Lit (s : string)                    (* literal text *)
| One (k : cls)                       (* one character of a class *)
| StarLazy (k : cls)                  (* [k*?] *)
| StarGreedy (k : cls)                (* [k*] *)
| PlusGreedy (k : cls)                (* [k+] *)
| Seq (r1 r2 : re)
| Group (name : option string) (r : re)  (* [(?P<name>r)], or [(r)] *)
| End.                                (* [$] *)

(** The named groups matched so far ([Match.groupdict()]). *)
Abbreviation groups := (gmap string string).

Fixpoint strip_prefix (p s : string) : option string :=
  match p with
  | "" => Some s
  | String a p' =>
      match s with
      | "" => None
      | String b s' => if Ascii.eqb a b then strip_prefix p' s' else None
      end
  end.

(** The text between the position [s] and the later position [s']. *)
Definition consumed (s s' : string) : string :=
  substring 0 (String.length s - String.length s') s.

(** Backtracking search in the order of [re]: a lazy star tries the
    continuation before one more character, a greedy one after. *)
Fixpoint lazy_star {A} (P : ascii -> bool) (s : string)
    (k : string -> option A) : option A :=
  match k s with
  | Some r => Some r
  | None =>
      match s with
      | "" => None
      | String a s' => if P a then lazy_star P s' k else None
      end
  end.

Fixpoint greedy_star {A} (P : ascii -> bool) (s : string)
    (k : string -> option A) : option A :=
  match s with
  | "" => k s
  | String a s' =>
      if P a then
        match greedy_star P s' k with
        | Some r => Some r
        | None => k s
        end
      else k s
  end.

Definition at_end (s : string) : bool :=
  match s with
  | "" => true
  | String c "" => Ascii.eqb c "010"
  | _ => false
  end.

Fixpoint exec (r : re) (s : string) (g : groups)
    (k : string -> groups -> option groups) : option groups :=
  match r with
  | Lit l =>
      match strip_prefix l s with
      | Some s' => k s' g
      | None => None
      end
  | One c =>
      match s with
      | "" => None
      | String a s' => if in_cls c a then k s' g else None
      end
  | StarLazy c => lazy_star (in_cls c) s (fun s' => k s' g)
  | StarGreedy c => greedy_star (in_cls c) s (fun s' => k s' g)
  | PlusGreedy c =>
      match s with
      | "" => None
      | String a s' =>
          if in_cls c a then greedy_star (in_cls c) s' (fun s'' => k s'' g)
          else None
      end
  | Seq r1 r2 => exec r1 s g (fun s' g' => exec r2 s' g' k)
  | Group name r1 =>
      exec r1 s g
        (fun s' g' =>
           k s' match name with
                | Some n => <[n := consumed s s']> g'
                | None => g'
                end)
  | End => if at_end s then k s g else None
  end.

(** [re.match(r, s)], as the named groups of the match. *)
Definition re_match (r : re) (s : string) : option groups :=
  exec r s ∅ (fun _ g => Some g).

(** [re.search(r, s)] *)
Fixpoint re_search (r : re) (s : string) : option groups :=
  match re_match r s with
  | Some g => Some g
  | None =>
      match s with
      | "" => None
      | String _ s' => re_search r s'
      end
  end.

Declare Scope re_scope.
Delimit Scope re_scope with re.
Infix "·" := Seq (at level 60, right associativity) : re_scope.

End Re.

(** ** The parsed HTML document ([bs4]) *)

Module Soup.

Inductive node : Type :=
| Text (s : string)                          (* a NavigableString *)
| Tag (name : string) (children : list node).

(** A node is addressed by the child indices leading to it from the
    root (the [BeautifulSoup] object). *)
Abbreviation path := (list nat).

(** The nodes in document order, each with its address. *)
Fixpoint walk (here : path) (n : node) : list (path * node) :=
  (here, n) ::
  match n with
  | Text _ => []
  | Tag _ cs =>
      (fix go (i : nat) (cs : list node) : list (path * node) :=
         match cs with
         | [] => []
         | c :: cs' => (walk (here ++ [i]) c ++ go (S i) cs')%list
         end) 0 cs
  end.

Definition is_tag (name : string) (n : node) : bool :=
  match n with
  | Tag m _ => String.eqb m name
  | Text _ => false
  end.

(** [soup.find_all(name)]: the addresses of the tags of that name below
    the root, in document order. *)
Definition find_all (name : string) (root : node) : list path :=
  map fst (filter (fun pn => is_tag name (snd pn)) (tail (walk [] root))).

Fixpoint get_node (root : node) (p : path) : option node :=
  match p with
  | [] => Some root
  | i :: p' =>
      match root with
      | Tag _ cs =>
          match nth_error cs i with
          | Some c => get_node c p'
          | None => None
          end
      | Text _ => None
      end
  end.

(** [.text], [.get_text()]: the strings below the node, concatenated. *)
Fixpoint get_text (n : node) : string :=
  match n with
  | Text s => s
  | Tag _ cs =>
      (fix go (cs : list node) : string :=
         match cs with
         | [] => ""
         | c :: cs' => get_text c +:+ go cs'
         end) cs
  end.

Definition path_eqb (p q : path) : bool := bool_decide (p = q).

(** The nodes that come before [p] in document order, nearest first
    ([.previous_elements]). *)
Fixpoint before (p : path) (l : list (path * node)) (acc : list (path * node))
    : list (path * node) :=
  match l with
  | [] => acc
  | (q, n) :: l' => if path_eqb q p then acc else before p l' ((q, n) :: acc)
  end.

Definition previous_elements (root : node) (p : path) : list (path * node) :=
  before p (walk [] root) [].

(** [el.find_previous(text=rx)]: the nearest string before [p] that the
    pattern is found in; [None] when there is none. *)
Definition find_previous_text (rx : Re.re) (root : node) (p : path)
    : option path :=
  fst <$> List.find
    (fun qn => match snd qn with
               | Text s => bool_decide (is_Some (Re.re_search rx s))
               | Tag _ _ => false
               end)
    (previous_elements root p).

(** The parent's address and the node's index among its siblings. *)
Definition split_last (p : path) : option (path * nat) :=
  match rev p with
  | [] => None
  | i :: q => Some (rev q, i)
  end.

Definition siblings (root : node) (p : path) : option (list node * nat) :=
  match split_last p with
  | Some (pp, i) =>
      match get_node root pp with
      | Some (Tag _ cs) => Some (cs, i)
      | _ => None
      end
  | None => None
  end.

(** [el.find_next_sibling(name)] *)
Definition find_next_sibling (name : string) (root : node) (p : path)
    : option node :=
  match siblings root p with
  | Some (cs, i) => List.find (is_tag name) (skipn (S i) cs)
  | None => None
  end.

(** [el.find_previous_sibling(name)] *)
Definition find_previous_sibling (name : string) (root : node) (p : path)
    : option node :=
  match siblings root p with
  | Some (cs, i) => List.find (is_tag name) (rev (firstn i cs))
  | None => None
  end.

End Soup.

(** ** pandas, as far as the converter uses it *)

(** The tabular parsers belong to pandas; the converter only needs that
    each of them either returns a table or raises. *)
Class Pandas : Type := {
  DataFrame : Type;
  (** the CSV parser, on decoded text *)
  csv_table : string -> result DataFrame;
  (** [pd.read_html(str(table), index_col=0, header=0)[0].dropna(how="all")] *)
  html_table : Soup.node -> result DataFrame
}.

(** [pd.read_csv(path)] on a file holding the bytes [bs]: the default
    encoding is UTF-8, with strict errors. *)
Definition read_csv `{Pandas} (bs : string) : result DataFrame :=
  match TextIO.utf8_decode bs with
  | Ok text => csv_table text
  | Raise e => Raise e
  end.

(** ** energyplus_wrapper/utils.py *)

Module Utils.
Section WithPandas.
Context `{Pandas}.

(** [re_section]: the text Report: followed by a group holding any
    text at all (the pattern is compiled with [re.DOTALL]). *)
Definition re_section : Re.re :=
  Re.Seq (Re.Lit "Report:") (Re.Group None (Re.StarGreedy Re.DotAll)).

(** An attribute or method of [o], which raises on [None]. *)
Definition getattr {A} (o : option A) : result A :=
  match o with
  | Some a => Ok a
  | None => Raise AttributeError
  end.

(** The chain [table.find_previous(text=...).find_next_sibling("b").text.strip()] *)
Definition section_chain (soup : Soup.node) (table : Soup.path) : result string :=
  match getattr (Soup.find_previous_text re_section soup table) with
  | Raise e => Raise e
  | Ok marker =>
      match getattr (Soup.find_next_sibling "b" soup marker) with
      | Raise e => Raise e
      | Ok b => Ok (PyStr.strip (Soup.get_text b))
      end
  end.

(** [try: section = ... except AttributeError: section = None] *)
Definition section_of (soup : Soup.node) (table : Soup.path)
    : result (option string) :=
  match section_chain soup table with
  | Ok s => Ok (Some s)
  | Raise AttributeError => Ok None
  | Raise e => Raise e
  end.

(** [title = table.find_previous_sibling("b").get_text()] *)
Definition title_of (soup : Soup.node) (table : Soup.path) : result string :=
  match getattr (Soup.find_previous_sibling "b" soup table) with
  | Ok b => Ok (Soup.get_text b)
  | Raise e => Raise e
  end.

(** What the generator computes for one table: the value it yields, or
    the exception that ends the iteration. *)
Definition report_item (soup : Soup.node) (table : Soup.path)
    : result (option string * string * DataFrame) :=
  match section_of soup table with
  | Raise e => Raise e
  | Ok section =>
      match title_of soup table with
      | Raise e => Raise e
      | Ok title =>
          match Soup.get_node soup table with
          | None => Raise AttributeError
          | Some t =>
              match html_table t with
              | Ok df => Ok (section, title, df)
              | Raise e => Raise e
              end
          end
      end
  end.

(** [_eplus_html_report_gen]: one step per [<table>], in document order. *)
Definition _eplus_html_report_gen (soup : Soup.node)
    : list (result (option string * string * DataFrame)) :=
  map (report_item soup) (Soup.find_all "table" soup).

(** A value of the top-level [Box]: the [BoxList] made for a title, or
    the nested [Box] of a section (which [default_box=True] creates on
    first access). *)
Inductive entry : Type :=
| EList (tables : list DataFrame)
| EBox (by_title : gmap string DataFrame).

(** The top-level [Box]; its keys are titles, section names and [None]. *)
Abbreviation reports_t := (gmap (option string) entry).

(** The body of the loop of [process_eplus_html_report]. *)
Definition assemble (reports : reports_t) (section : option string)
    (title : string) (df : DataFrame) : result reports_t :=
  if bool_decide (section = None)
     && negb (bool_decide (is_Some (reports !! Some title)))
  then Ok (<[Some title := EList []]> reports)
  else
    (* reports[section][title] = df *)
    match reports !! section with
    | None => Ok (<[section := EBox {[title := df]}]> reports)
    | Some (EBox b) => Ok (<[section := EBox (<[title := df]> b)]> reports)
    | Some (EList _) => Raise TypeError   (* a list indexed by a str *)
    end.

Fixpoint assemble_all (items : list (result (option string * string * DataFrame)))
    (reports : reports_t) : result reports_t :=
  match items with
  | [] => Ok reports
  | Raise e :: _ => Raise e
  | Ok (section, title, df) :: rest =>
      match assemble reports section title df with
      | Ok reports' => assemble_all rest reports'
      | Raise e => Raise e
      end
  end.

Definition process_eplus_html_report (soup : Soup.node) : result reports_t :=
  assemble_all (_eplus_html_report_gen soup) ∅.

(** *** The CSV outputs *)

(** An entry of the working directory. *)
Record dir_entry : Type := {
  entry_name : string;
  entry_is_file : bool;
  entry_bytes : string
}.

Record directory : Type := {
  dir_path : string;
  dir_entries : list dir_entry     (* in the order of the listing *)
}.

(** [fnmatch(name, "*.csv")] *)
Definition matches_csv (name : string) : bool := PyStr.endswith ".csv" name.

(** [working_dir.files("*.csv")] *)
Definition files_csv (working_dir : directory) : list dir_entry :=
  filter (fun e => entry_is_file e && matches_csv (entry_name e))
         (dir_entries working_dir).

(** The key made of a base name whose extension is removed:
    [if name != "eplus": name = name.replace("eplus-", "")]. *)
Definition series_key (name : string) : string :=
  if negb (String.eqb name "eplus") then PyStr.replace "eplus-" "" name
  else name.

(** The key of the file [basename]; [csv_file.basename()] is the name of
    the directory entry. *)
Definition series_name (basename : string) : string :=
  series_key (PyStr.stripext basename).

Inductive series : Type :=
| Table (df : DataFrame)
| RawText (text : string).

Definition warn (msg : string) : M (list string) unit :=
  modify (fun ws => (ws ++ [msg])%list).

Definition map_result {A B} (f : A -> B) (r : result A) : result B :=
  match r with
  | Ok a => Ok (f a)
  | Raise e => Raise e
  end.

(** The [try] statement of the loop. *)
Definition load_series (working_dir : directory) (csv_file : dir_entry)
    : M (list string) series :=
  try_except
    (lift (map_result Table (read_csv (entry_bytes csv_file))))
    (fun _ =>
       run warn ("Unable to parse csv file " ++ dir_path working_dir ++ "/"
                 ++ entry_name csv_file
                 ++ ". Return raw string as fallback.");
       lift (map_result RawText (TextIO.read_text (entry_bytes csv_file)))).

Fixpoint time_series_loop (working_dir : directory) (fs : list dir_entry)
    (time_series : gmap string series) : M (list string) (gmap string series) :=
  match fs with
  | [] => ret time_series
  | csv_file :: rest =>
      do time_serie <- load_series working_dir csv_file;
      time_series_loop working_dir rest
        (<[series_name (entry_name csv_file) := time_serie]> time_series)
  end.

Definition process_eplus_time_series (working_dir : directory)
    : M (list string) (gmap string series) :=
  time_series_loop working_dir (files_csv working_dir) ∅.

End WithPandas.

Abbreviation reports_t := (gmap (option string) entry).

End Utils.

(** ** energyplus_wrapper/env_manager.py *)

Module EnvManager.

Import Re.

(** [eplus_filename_pattern]; its dots are not escaped, so each of them
    stands for any character but a line feed. *)
Definition eplus_filename_pattern : re :=
  (StarLazy Dot ·
   Group (Some "filename")
     (Lit "EnergyPlus-" ·
      Group (Some "version")
        (PlusGreedy Digit · One Dot · PlusGreedy Digit · One Dot ·
         PlusGreedy Digit) ·
      Lit "-" ·
      Group (Some "revision") (PlusGreedy Word) ·
      Lit "-" ·
      Group (Some "platform") (StarLazy Dot) ·
      One Dot · Lit "sh") ·
   End)%re.

Definition _extract_filename_info (url : string) : result groups :=
  match re_match eplus_filename_pattern url with
  | None => Raise (ValueError "URL does not match the EnergyPlus filename pattern.")
  | Some filename_match => Ok filename_match
  end.

(** *** Paths and the file system *)

(** A [pathlib.Path]: its components, and whether it starts at the root. *)
Record Path : Type := { is_absolute : bool; parts : list string }.

(** The components of a path written with slashes; empty components and
    single dots are dropped. *)
Fixpoint split_slash (cur : string) (s : string) : list string :=
  let flush := if String.eqb cur "" || String.eqb cur "." then [] else [cur] in
  match s with
  | "" => flush
  | String c s' =>
      if Ascii.eqb c "/" then (flush ++ split_slash "" s')%list
      else split_slash (cur ++ String c "") s'
  end.

(** [Path(s)] *)
Definition path_of_string (s : string) : Path :=
  {| is_absolute := PyStr.startswith "/" s; parts := split_slash "" s |}.

(** [p / name] *)
Definition joinpath (p : Path) (name : string) : Path :=
  let q := path_of_string name in
  if is_absolute q then q
  else {| is_absolute := is_absolute p; parts := (parts p ++ parts q)%list |}.

Fixpoint join_slash (l : list string) : string :=
  match l with
  | [] => ""
  | [c] => c
  | c :: l' => c ++ "/" ++ join_slash l'
  end.

(** [str(p)] *)
Definition str_of_path (p : Path) : string :=
  if is_absolute p then "/" ++ join_slash (parts p)
  else match parts p with [] => "." | l => join_slash l end.

Inductive fs_entry : Type :=
| Dir
| File (bytes : string).

(** The file system, keyed by the components of absolute paths. *)
Abbreviation fs_t := (gmap (list string) fs_entry).

Inductive pattern : Type :=
| CRLF          (* the text "\r\n" *)
| EOF.          (* [pexpect.EOF] *)

(** What the module does to its environment, in order. *)
Inductive event : Type :=
| Mkdir (p : list string)
| LockAcquire (p : list string)
| LockRelease (p : list string)
| Rmtree (p : list string)
| MkTemp (p : list string)
| RmTemp (p : list string)
| Head (url : string)
| Get (url : string)
| WriteFile (p : list string)
| Spawn (cmd : string)
| Expect (pat : pattern)
| SendLine (line : string)
| Close.

Record world : Type := {
  platform_system : string;                    (* [platform.system()] *)
  cwd : list string;
  fs : fs_t;
  head_content_type : string -> option string; (* of the HEAD response *)
  get_body : string -> string;                 (* of the GET response *)
  tmp_dir : list string;           (* what [TemporaryDirectory()] creates *)
  (** the installer, as a function of the dialogue so far: whether the
      awaited text arrives, and what the finished run leaves on disk *)
  expect_reply : list event -> pattern -> result unit;
  install_effect : list event -> fs_t -> fs_t;
  events : list event
}.

Definition set_fs (f : fs_t -> fs_t) (w : world) : world :=
  {| platform_system := platform_system w; cwd := cwd w; fs := f (fs w);
     head_content_type := head_content_type w; get_body := get_body w;
     tmp_dir := tmp_dir w; expect_reply := expect_reply w;
     install_effect := install_effect w; events := events w |}.

Definition add_event (e : event) (w : world) : world :=
  {| platform_system := platform_system w; cwd := cwd w; fs := fs w;
     head_content_type := head_content_type w; get_body := get_body w;
     tmp_dir := tmp_dir w; expect_reply := expect_reply w;
     install_effect := install_effect w;
     events := (events w ++ [e])%list |}.

Definition log (e : event) : M world unit := modify (add_event e).

Definition resolve (w : world) (p : Path) : list string :=
  if is_absolute p then parts p else (cwd w ++ parts p)%list.

(** [p.absolute()] *)
Definition absolute (p : Path) : M world Path :=
  fun w => (Ok {| is_absolute := true; parts := resolve w p |}, w).

(** [p.exists()] *)
Definition present (f : fs_t) (d : list string) : bool :=
  match d with
  | [] => true                                  (* the root *)
  | _ => match f !! d with Some _ => true | None => false end
  end.

Definition is_dir (f : fs_t) (d : list string) : bool :=
  match d with
  | [] => true
  | _ => match f !! d with Some Dir => true | _ => false end
  end.

Definition exists_ (p : Path) : M world bool :=
  fun w => (Ok (present (fs w) (resolve w p)), w).

Fixpoint mkdir_go (done todo : list string) (f : fs_t) : result fs_t :=
  match todo with
  | [] => Ok f
  | c :: todo' =>
      let d := (done ++ [c])%list in
      match f !! d with
      | Some Dir => mkdir_go d todo' f
      | Some (File _) =>
          Raise (match todo' with [] => FileExistsError | _ => NotADirectoryError end)
      | None => mkdir_go d todo' (<[d := Dir]> f)
      end
  end.

(** [p.mkdir(exist_ok=True, parents=True)] *)
Definition mkdir (p : Path) : M world unit :=
  fun w =>
    let w' := add_event (Mkdir (resolve w p)) w in
    match mkdir_go [] (resolve w p) (fs w) with
    | Ok f => (Ok tt, set_fs (fun _ => f) w')
    | Raise e => (Raise e, w')
    end.

Fixpoint is_prefix (p q : list string) : bool :=
  match p, q with
  | [], _ => true
  | a :: p', b :: q' => String.eqb a b && is_prefix p' q'
  | _ :: _, [] => false
  end.

(** [shutil.rmtree(p, ignore_errors=True)] *)
Definition rmtree (p : Path) : M world unit :=
  fun w =>
    let d := resolve w p in
    (Ok tt, set_fs (filter (fun kv => is_prefix d kv.1 = false))
                   (add_event (Rmtree d) w)).

(** The entries directly inside the directory [d]. *)
Definition children (f : fs_t) (d : list string) : list (list string) :=
  List.filter (fun k => is_prefix d k && Nat.eqb (length k) (S (length d)))
              (map fst (map_to_list f)).

(** A Python value, as far as its truth value matters here. *)
Inductive pyval : Type :=
| PyBool (b : bool)
| PyGenerator (items : list (list string)).

(** [bool(v)]: a generator object is true, whatever it would yield. *)
Definition truthy (v : pyval) : bool :=
  match v with
  | PyBool b => b
  | PyGenerator _ => true
  end.

(** [a and b]: [b] is evaluated only when [a] is true. *)
Definition py_and (a b : M world pyval) : M world pyval :=
  do x <- a;
  if truthy x then b else ret x.

(** [p.glob("*")] *)
Definition glob_star (p : Path) : M world pyval :=
  fun w => (Ok (PyGenerator (children (fs w) (resolve w p))), w).

(** The directories on the way to the file [done/todo], from the root
    down: the first one that is missing makes [open] fail with
    [FileNotFoundError], the first one that is a regular file with
    [NotADirectoryError]. *)
Fixpoint open_parents (done todo : list string) (f : fs_t) : result unit :=
  match todo with
  | [] => Ok tt
  | c :: todo' =>
      match todo' with
      | [] => Ok tt                          (* [c] names the file itself *)
      | _ :: _ =>
          let d := (done ++ [c])%list in
          match f !! d with
          | Some Dir => open_parents d todo' f
          | Some (File _) => Raise NotADirectoryError
          | None => Raise FileNotFoundError
          end
      end
  end.

(** [open(p, "wb").write(data)]: the file is created or replaced; a
    path that is a directory cannot be opened for writing. *)
Definition write_bytes (p : Path) (data : string) : M world unit :=
  fun w =>
    let d := resolve w p in
    let w' := add_event (WriteFile d) w in
    match open_parents [] d (fs w) with
    | Raise e => (Raise e, w')
    | Ok _ =>
        if is_dir (fs w) d then (Raise IsADirectoryError, w')
        else (Ok tt, set_fs <[d := File data]> w')
    end.

(** [with fasteners.InterProcessLock(p): body]: the lock file is
    created when missing, and the lock is released on every exit. *)
Definition with_lock {A} (p : Path) (body : M world A) : M world A :=
  fun w =>
    let d := resolve w p in
    let acquire :=
      fun w0 => set_fs (fun f => match f !! d with
                                 | None => <[d := File ""]> f
                                 | Some _ => f
                                 end)
                       (add_event (LockAcquire d) w0) in
    finally body (log (LockRelease d)) (acquire w).

(** [with TemporaryDirectory() as d: body d] *)
Definition with_temp_dir {A} (body : string -> M world A) : M world A :=
  fun w =>
    let d := {| is_absolute := true; parts := tmp_dir w |} in
    let created := set_fs <[tmp_dir w := Dir]> (add_event (MkTemp (tmp_dir w)) w) in
    finally (body (str_of_path d))
            (modify (fun w1 => set_fs (filter (fun kv => is_prefix (tmp_dir w) kv.1 = false))
                                      (add_event (RmTemp (tmp_dir w)) w1)))
            created.

(** *** The network *)

(** [requests.head(url, allow_redirects=True).headers.get("content-type")] *)
Definition head_content_type_of (url : string) : M world (option string) :=
  fun w => (Ok (head_content_type w url), add_event (Head url) w).

(** [requests.get(url, allow_redirects=True).content] *)
Definition get_content (url : string) : M world string :=
  fun w => (Ok (get_body w url), add_event (Get url) w).

Definition _is_downloadable (url : string) : M world bool :=
  do content_type <- head_content_type_of url;
  match content_type with
  | None => ret false
  | Some content_type =>
      let content_type := PyStr.lower content_type in
      if PyStr.contains "text" content_type then ret false
      else if PyStr.contains "html" content_type then ret false
      else ret true
  end.

Definition _download_eplus_version (url : string) (path : Path) : M world unit :=
  do ok <- _is_downloadable url;
  if negb ok then raise (ValueError "URL is not a downloadable file.")
  else
    do content <- get_content url;
    write_bytes path content.

(** *** The installer's terminal *)

(** [child.expect(pat)] *)
Definition expect (pat : pattern) : M world unit :=
  fun w =>
    let w' := add_event (Expect pat) w in
    match expect_reply w (events w) pat with
    | Ok _ =>
        (Ok tt, match pat with
                | EOF => set_fs (install_effect w (events w')) w'
                | CRLF => w'
                end)
    | Raise e => (Raise e, w')
    end.

(** [child.sendline(s)] *)
Definition sendline (s : string) : M world unit := log (SendLine s).

(** [with pexpect.spawn(cmd) as child: body] *)
Definition with_spawn {A} (cmd : string) (body : M world A) : M world A :=
  run log (Spawn cmd);
  finally body (log Close).

Definition _extract_and_install (setup_script eplus_folder : string)
    : M world unit :=
  with_spawn ("bash " ++ setup_script)
    (run expect CRLF;
     run sendline "y";
     run sendline eplus_folder;
     run expect CRLF;
     run sendline "n";
     expect EOF).

(** *** [ensure_eplus_root] *)

(** The inner function [url_to_installed]. *)
Definition url_to_installed (url : string) (eplus_folder script_path : Path)
    : M world unit :=
  do there <- exists_ script_path;
  run (if negb there then _download_eplus_version url script_path else ret tt);
  _extract_and_install (str_of_path script_path) (str_of_path eplus_folder).

(** [finfo[key]] *)
Definition getitem (finfo : groups) (key : string) : M world string :=
  match finfo !! key with
  | Some v => ret v
  | None => raise (ValueError key)
  end.

Definition unsupported (system : string) : string :=
  "Your system (" ++ system ++ ") is not supported yet."
  ++ " You have to install EnergyPlus by yourself.".

(** [eplus_folder / f"EnergyPlus-{version.replace('.', '-')}"] *)
Definition expected_folder (eplus_folder : Path) (version : string) : Path :=
  joinpath eplus_folder ("EnergyPlus-" ++ PyStr.replace "." "-" version).

(** The body of the [with] block that holds the lock. *)
Definition locked_section (url : string) (eplus_folder : Path)
    (installer_cache : option Path) : M world Path :=
  do finfo <- lift (_extract_filename_info url);
  do filename <- getitem finfo "filename";
  do version <- getitem finfo "version";
  let expected_eplus_folder := expected_folder eplus_folder version in
  do cond <- py_and (do there <- exists_ expected_eplus_folder;
                     ret (PyBool there))
                    (glob_star expected_eplus_folder);
  if truthy cond then absolute expected_eplus_folder
  else
    run rmtree expected_eplus_folder;
    run match installer_cache with
        | None =>
            with_temp_dir
              (fun d => url_to_installed url eplus_folder
                          (joinpath (path_of_string d) filename))
        | Some installer_cache =>
            run mkdir installer_cache;
            url_to_installed url eplus_folder
              (joinpath installer_cache filename)
        end;
    absolute expected_eplus_folder.

Definition ensure_eplus_root (url : string) (eplus_folder : Path)
    (installer_cache : option Path) : M world Path :=
  do w <- get;
  if negb (String.eqb (platform_system w) "Linux")
  then raise (ValueError (unsupported (platform_system w)))
  else
    run mkdir eplus_folder;
    with_lock (joinpath eplus_folder ".lock")
      (locked_section url eplus_folder installer_cache).

End EnvManager.

(** ** A small stand-in for pandas

    Tables as rows of cells: enough to run the converter on examples. *)

Module SimplePandas.

Fixpoint split_on (sep : ascii) (cur : string) (s : string) : list string :=
  match s with
  | "" => [cur]
  | String c s' =>
      if Ascii.eqb c sep then cur :: split_on sep "" s'
      else split_on sep (cur ++ String c "") s'
  end.

Definition csv_rows (text : string) : result (list (list string)) :=
  match List.filter (fun l => negb (String.eqb l "")) (split_on "010" "" text) with
  | [] => Raise ParserError            (* no columns to parse *)
  | lines => Ok (map (split_on "," "") lines)
  end.

Definition cells (row : Soup.node) : list string :=
  match row with
  | Soup.Tag _ cs =>
      map Soup.get_text
          (List.filter (fun c => Soup.is_tag "td" c || Soup.is_tag "th" c) cs)
  | Soup.Text _ => []
  end.

Definition html_rows (table : Soup.node) : result (list (list string)) :=
  match List.filter (fun pn => Soup.is_tag "tr" (snd pn)) (Soup.walk [] table) with
  | [] => Raise (ValueError "No tables found")
  | rows => Ok (map (fun pn => cells (snd pn)) rows)
  end.

Definition simple_pandas : Pandas :=
  {| DataFrame := list (list string);
     csv_table := csv_rows;
     html_table := html_rows |}.

End SimplePandas.

(** * Properties *)

(** ** Strings *)

#[local] Arguments String.append !s1 s2 : simpl nomatch.

Section StringFacts.

Lemma append_nil_r (s : string) : s ++ "" = s.
Proof. induction s as [|c s IH]; simpl; [reflexivity | now rewrite IH]. Qed.

Lemma append_assoc (a b c : string) : (a ++ b) ++ c = a ++ b ++ c.
Proof. induction a as [|x a IH]; simpl; [reflexivity | now rewrite IH]. Qed.

Lemma length_append (a b : string) :
  String.length (a ++ b) = String.length a + String.length b.
Proof. induction a as [|x a IH]; simpl; [reflexivity | now rewrite IH]. Qed.

Lemma prefix_append (p s : string) : String.prefix p (p ++ s) = true.
Proof.
  induction p as [|c p IH]; simpl; [now destruct s |].
  destruct (ascii_dec c c); [exact IH | congruence].
Qed.

Lemma prefix_nil (s : string) : String.prefix "" s = true.
Proof. now destruct s. Qed.

(** A prefix that fits into the first part of a text is a prefix of
    that part. *)
Lemma prefix_within (p u z : string) :
  String.length p <= String.length u ->
  String.prefix p (u ++ z) = String.prefix p u.
Proof.
  revert u. induction p as [|c p IH]; intros u Hlen.
  - now rewrite !prefix_nil.
  - destruct u as [|d u]; simpl in *; [lia |].
    destruct (ascii_dec c d); [apply IH; lia | reflexivity].
Qed.

Lemma contains_cons_false (p : string) (c : ascii) (s : string) :
  PyStr.contains p (String c s) = false ->
  PyStr.startswith p (String c s) = false /\ PyStr.contains p s = false.
Proof. simpl. intros Hc. now apply orb_false_iff in Hc. Qed.

End StringFacts.

(** ** [str.replace] *)

Section ReplaceFacts.
Variables old new : string.

Lemma replace_go_skip (x : string) : forall (b : string) (n : nat),
  String.length x = n ->
  PyStr.replace_go old new n (x ++ b) = PyStr.replace_go old new 0 b.
Proof.
  induction x as [|c x IH]; intros b n Hn; simpl in *; subst n.
  - reflexivity.
  - now apply IH.
Qed.

(** An occurrence at the very start is replaced, and the search goes on
    behind it. *)
Lemma replace_at_occurrence (b : string) :
  old <> "" ->
  PyStr.replace old new (old ++ b) = new ++ PyStr.replace old new b.
Proof.
  intros Hne. unfold PyStr.replace.
  assert (exists c o, old = String c o) as (c & o & E).
  { destruct old as [|c o]; [congruence | eauto]. }
  replace (old ++ b) with (String c (o ++ b)) by now rewrite E.
  cbn [PyStr.replace_go].
  replace (String c (o ++ b)) with (old ++ b) by now rewrite E.
  unfold PyStr.startswith. rewrite prefix_append.
  f_equal. apply replace_go_skip. rewrite E. simpl. lia.
Qed.

Lemma replace_no_match (c : ascii) (s : string) :
  PyStr.startswith old (String c s) = false ->
  PyStr.replace old new (String c s) = String c (PyStr.replace old new s).
Proof. intros Hs. unfold PyStr.replace. cbn [PyStr.replace_go]. now rewrite Hs. Qed.

(** A text without occurrence is left as it is. *)
Lemma replace_absent (s : string) :
  PyStr.contains old s = false -> PyStr.replace old new s = s.
Proof.
  induction s as [|c s IH]; intros Hc; [reflexivity |].
  apply contains_cons_false in Hc as [Hs Hc].
  rewrite replace_no_match by exact Hs. now rewrite IH.
Qed.

(** The first occurrence: the text before it is kept, the occurrence is
    replaced, and the rest is treated in the same way.  ([old] is cut
    into [o1 ++ o2] with [o2] not empty, so that [a ++ o1] holds every
    occurrence that would start before the one at the end of [a].) *)
Lemma replace_first_occurrence (o1 o2 : string) (a b : string) :
  old = o1 ++ o2 -> o2 <> "" -> String.length o2 = 1 ->
  PyStr.contains old (a ++ o1) = false ->
  PyStr.replace old new (a ++ old ++ b) = a ++ new ++ PyStr.replace old new b.
Proof.
  intros Hold Hne Hlen. induction a as [|c a IH]; intros Hc.
  - simpl. apply replace_at_occurrence. subst old.
    destruct o1; simpl; [exact Hne | discriminate].
  - change (String c a ++ o1) with (String c (a ++ o1)) in Hc.
    apply contains_cons_false in Hc as [Hs Hc].
    change (String c a ++ old ++ b) with (String c (a ++ old ++ b)).
    rewrite replace_no_match.
    + simpl. f_equal. now apply IH.
    + unfold PyStr.startswith in *.
      change (String c (a ++ old ++ b)) with (String c a ++ old ++ b).
      rewrite Hold at 2. rewrite (append_assoc o1 o2 b).
      rewrite <- (append_assoc (String c a) o1 (o2 ++ b)).
      rewrite prefix_within; [exact Hs |].
      rewrite Hold, !length_append. simpl. lia.
Qed.

End ReplaceFacts.

(** ** The keys of the time series *)

(** The key as the specification words it: a leading [eplus-] is
    stripped and the rest of the name is left unchanged; the name [eplus]
    is kept. *)
Definition spec_series_key (name : string) : string :=
  if String.eqb name "eplus" then name
  else match Re.strip_prefix "eplus-" name with
       | Some rest => rest
       | None => name
       end.

Lemma series_key_is_replace (name : string) :
  Utils.series_key name = PyStr.replace "eplus-" "" name.
Proof.
  unfold Utils.series_key. destruct (String.eqb_spec name "eplus") as [->|]; reflexivity.
Qed.

(** C3, as stated, fails: the name [zone-eplus-out] has no leading
    [eplus-], yet its key is not the name itself, because [str.replace]
    removes the occurrence in the middle. *)
Lemma series_key_not_only_the_prefix :
  PyStr.stripext "zone-eplus-out.csv" = "zone-eplus-out" /\
  Utils.series_name "zone-eplus-out.csv" = "zone-out" /\
  spec_series_key "zone-eplus-out" = "zone-eplus-out".
Proof. repeat split; reflexivity. Qed.

(** C3, amended: the key of a base name other than [eplus] is the name
    with every occurrence of [eplus-] removed, from left to right: a name
    without occurrence is its own key; the text before the first
    occurrence is kept, the occurrence is dropped and the rest is treated
    in the same way; so a leading [eplus-] is stripped ([eplus-meter.csv]
    has the key [meter]), and when nothing else occurs the key is the rest
    of the name, as the specification says.  The name [eplus] is kept. *)
Theorem series_key_removes_every_occurrence (name : string) :
  (PyStr.contains "eplus-" name = false -> Utils.series_key name = name) /\
  (forall a b : string,
      name = a ++ "eplus-" ++ b ->
      PyStr.contains "eplus-" (a ++ "eplus") = false ->
      Utils.series_key name = a ++ Utils.series_key b) /\
  (forall rest : string,
      name = "eplus-" ++ rest ->
      PyStr.contains "eplus-" rest = false ->
      Utils.series_key name = rest /\ spec_series_key name = rest) /\
  Utils.series_key "eplus" = "eplus" /\
  Utils.series_name "eplus-meter.csv" = "meter".
Proof.
  assert (Hfirst : forall a b : string,
             PyStr.contains "eplus-" (a ++ "eplus") = false ->
             Utils.series_key (a ++ "eplus-" ++ b) = a ++ Utils.series_key b).
  { intros a b Ha. rewrite !series_key_is_replace.
    now rewrite (replace_first_occurrence "eplus-" "" "eplus" "-" a b). }
  split; [| split; [| split; [| split; reflexivity]]].
  - intros Hc. rewrite series_key_is_replace. now apply replace_absent.
  - intros a b -> Ha. now apply Hfirst.
  - intros rest -> Hc. split; [| reflexivity].
    change ("eplus-" ++ rest) with ("" ++ "eplus-" ++ rest).
    rewrite (Hfirst "" rest) by reflexivity.
    rewrite series_key_is_replace. simpl. now apply replace_absent.
Qed.

(** ** The time series *)

Section TimeSeriesFacts.
Context `{Pandas}.
Implicit Types (wd : Utils.directory) (e : Utils.dir_entry).

Definition key_of e : string := Utils.series_name (Utils.entry_name e).

Definition undecodable e : Prop :=
  TextIO.utf8_valid (Utils.entry_bytes e) = false.

Definition fallback_warning wd e : string :=
  "Unable to parse csv file " ++ Utils.dir_path wd ++ "/"
  ++ Utils.entry_name e ++ ". Return raw string as fallback.".

(** What [load_series] returns does not depend on the warnings emitted
    before. *)
Lemma load_series_fst wd e (ws ws' : list string) :
  fst (Utils.load_series wd e ws) = fst (Utils.load_series wd e ws').
Proof.
  unfold Utils.load_series, try_except, lift, bind, Utils.warn, modify.
  destruct (Utils.map_result Utils.Table (read_csv (Utils.entry_bytes e)));
    [reflexivity |].
  destruct (Utils.map_result Utils.RawText (TextIO.read_text (Utils.entry_bytes e)));
    reflexivity.
Qed.

(** The bytes that are not UTF-8 defeat the parser and the fallback
    alike: the warning is emitted, and reading the text raises. *)
Lemma load_series_undecodable wd e (ws : list string) :
  undecodable e ->
  Utils.load_series wd e ws
  = (Raise UnicodeDecodeError, (ws ++ [fallback_warning wd e])%list).
Proof.
  unfold undecodable. intros Hbad.
  unfold Utils.load_series, try_except, lift, bind, Utils.warn, modify,
    read_csv, TextIO.read_text, TextIO.utf8_decode.
  rewrite Hbad. reflexivity.
Qed.

(** Nothing else escapes from the [try] statement. *)
Lemma load_series_raises wd e (ws : list string) (x : exn) :
  fst (Utils.load_series wd e ws) = Raise x ->
  x = UnicodeDecodeError /\ undecodable e.
Proof.
  unfold undecodable, Utils.load_series, try_except, lift, bind, Utils.warn,
    modify, read_csv, TextIO.read_text, TextIO.utf8_decode.
  destruct (TextIO.utf8_valid (Utils.entry_bytes e)); simpl.
  - destruct (csv_table (Utils.entry_bytes e)); simpl; discriminate.
  - intros [= <-]. split; reflexivity.
Qed.

Lemma time_series_loop_raises wd (fs : list Utils.dir_entry) :
  forall (m0 : gmap string Utils.series) (ws : list string),
    Exists undecodable fs ->
    fst (Utils.time_series_loop wd fs m0 ws) = Raise UnicodeDecodeError.
Proof.
  induction fs as [|e fs IH]; intros m0 ws Hex; [inversion Hex |].
  cbn [Utils.time_series_loop]. unfold bind.
  destruct (Utils.load_series wd e ws) as [[v|x] ws1] eqn:E.
  - apply IH. inversion Hex as [? ? Hbad | ? ? Hrest]; subst; [| exact Hrest].
    rewrite (load_series_undecodable wd e ws Hbad) in E. discriminate.
  - simpl. f_equal.
    apply (load_series_raises wd e ws x). now rewrite E.
Qed.

Lemma time_series_loop_lookup wd (fs : list Utils.dir_entry) :
  forall (m0 m : gmap string Utils.series) (ws ws' : list string) (k : string),
    Utils.time_series_loop wd fs m0 ws = (Ok m, ws') ->
    (Forall (fun e => key_of e <> k) fs -> m !! k = m0 !! k) /\
    (forall pre b post,
        fs = (pre ++ b :: post)%list -> key_of b = k ->
        Forall (fun e => key_of e <> k) post ->
        exists v, fst (Utils.load_series wd b []) = Ok v /\ m !! k = Some v).
Proof.
  induction fs as [|e fs IH]; intros m0 m ws ws' k Hrun.
  - cbn in Hrun. injection Hrun as <- <-. split; [reflexivity |].
    intros [|? ?] b post Heq; discriminate.
  - cbn [Utils.time_series_loop] in Hrun. unfold bind in Hrun.
    destruct (Utils.load_series wd e ws) as [[v|x] ws1] eqn:E; [| discriminate].
    destruct (IH _ _ _ _ k Hrun) as [Hkeep Hlast]. split.
    + intros Hall. inversion Hall as [|? ? Hne Hrest]; subst.
      rewrite (Hkeep Hrest). now apply lookup_insert_ne.
    + intros [|e' pre] b post Heq Hk Hpost; simpl in Heq;
        injection Heq as <- ->.
      * exists v. split.
        -- rewrite (load_series_fst wd e [] ws), E. reflexivity.
        -- rewrite (Hkeep Hpost). unfold key_of in Hk. rewrite <- Hk.
           apply lookup_insert_eq.
      * now apply (Hlast pre b post).
Qed.

End TimeSeriesFacts.

(** C5 (the code departs from the claim): a [*.csv] file whose bytes are
    not valid UTF-8 makes [process_eplus_time_series] raise
    [UnicodeDecodeError]: [pd.read_csv] fails, the handler emits its
    warning, and [f.read()], which decodes the same bytes, raises inside
    the handler, where nothing catches it. *)
Theorem time_series_raises_on_undecodable `{Pandas}
    (wd : Utils.directory) (ws : list string) :
  Exists undecodable (Utils.files_csv wd) ->
  fst (Utils.process_eplus_time_series wd ws) = Raise UnicodeDecodeError.
Proof. intros Hex. now apply time_series_loop_raises. Qed.

(** A directory whose only file, [eplus-out.csv], holds the byte 0xFF. *)
Definition garbage_dir : Utils.directory :=
  {| Utils.dir_path := "run";
     Utils.dir_entries :=
       [ {| Utils.entry_name := "eplus-out.csv"; Utils.entry_is_file := true;
            Utils.entry_bytes := String "255" "" |} ] |}.

Lemma time_series_raises_on_undecodable_witness :
  Exists undecodable (Utils.files_csv garbage_dir) /\
  fst (Utils.process_eplus_time_series (H := SimplePandas.simple_pandas)
         garbage_dir [])
  = Raise UnicodeDecodeError /\
  snd (Utils.process_eplus_time_series (H := SimplePandas.simple_pandas)
         garbage_dir [])
  = ["Unable to parse csv file run/eplus-out.csv. Return raw string as fallback."].
Proof.
  assert (Hex : Exists undecodable (Utils.files_csv garbage_dir)).
  { apply Exists_cons_hd. reflexivity. }
  split; [exact Hex |]. split.
  - exact (time_series_raises_on_undecodable (H := SimplePandas.simple_pandas)
             garbage_dir [] Hex).
  - reflexivity.
Defined.

(** C10: when two files of the listing derive the same key and no later
    file derives it, the mapping returned holds, under that key, the value
    loaded from the later of the two; what the earlier file gave is gone. *)
Theorem time_series_last_file_wins `{Pandas}
    (wd : Utils.directory) (pre mid post : list Utils.dir_entry)
    (a b : Utils.dir_entry) (ws ws' : list string)
    (m : gmap string Utils.series) :
  Utils.files_csv wd = (pre ++ a :: mid ++ b :: post)%list ->
  key_of a = key_of b ->
  Forall (fun e => key_of e <> key_of b) post ->
  Utils.process_eplus_time_series wd ws = (Ok m, ws') ->
  exists v, fst (Utils.load_series wd b []) = Ok v /\ m !! key_of b = Some v.
Proof.
  intros Hfiles _ Hpost Hrun. unfold Utils.process_eplus_time_series in Hrun.
  destruct (time_series_loop_lookup wd _ _ _ _ _ (key_of b) Hrun) as [_ Hlast].
  apply (Hlast (pre ++ a :: mid)%list b post); [| reflexivity | exact Hpost].
  rewrite Hfiles, <- app_assoc. reflexivity.
Qed.

Definition meter_a : Utils.dir_entry :=
  {| Utils.entry_name := "eplus-meter.csv"; Utils.entry_is_file := true;
     Utils.entry_bytes := "a,b" ++ String "010" "1,2" |}.

Definition meter_b : Utils.dir_entry :=
  {| Utils.entry_name := "meter.csv"; Utils.entry_is_file := true;
     Utils.entry_bytes := "x" ++ String "010" "3" |}.

Definition meter_dir : Utils.directory :=
  {| Utils.dir_path := "run"; Utils.dir_entries := [meter_a; meter_b] |}.

Lemma time_series_last_file_wins_witness :
  key_of meter_a = "meter" /\ key_of meter_b = "meter" /\
  exists m,
    Utils.process_eplus_time_series (H := SimplePandas.simple_pandas) meter_dir []
    = (Ok m, []) /\
    exists v,
      fst (Utils.load_series (H := SimplePandas.simple_pandas) meter_dir meter_b [])
      = Ok v /\
      m !! key_of meter_b = Some v.
Proof.
  split; [reflexivity |]. split; [reflexivity |].
  eexists. split; [vm_compute; reflexivity |].
  apply (time_series_last_file_wins (H := SimplePandas.simple_pandas)
           meter_dir [] [] [] meter_a meter_b [] []).
  - reflexivity.
  - reflexivity.
  - constructor.
  - vm_compute. reflexivity.
Defined.

(** ** The HTML report *)

Section ReportFacts.
Context `{Pandas}.

(** Every sequence of the top level is empty. *)
Definition lists_empty (r : Utils.reports_t) : Prop :=
  forall k l, r !! k = Some (Utils.EList l) -> l = [].

Lemma lists_empty_empty : lists_empty ∅.
Proof. intros k l Hk. rewrite lookup_empty in Hk. discriminate. Qed.

Lemma lists_empty_insert (r : Utils.reports_t) (k : option string) (v : Utils.entry) :
  lists_empty r -> (forall l, v = Utils.EList l -> l = []) ->
  lists_empty (<[k := v]> r).
Proof.
  intros Hr Hv k' l. rewrite lookup_insert. case_decide.
  - intros [= ->]. now apply Hv.
  - apply Hr.
Qed.


(** A later table of that title goes to the nested [Box] under the key
    [None]; the sequence is not touched. *)
Lemma assemble_again (r : Utils.reports_t) (title : string) (df : DataFrame)
    (l : list DataFrame) :
  r !! Some title = Some (Utils.EList l) ->
  (Utils.assemble r None title df
   = Ok (<[None := Utils.EBox {[title := df]}]> r) /\ r !! None = None)
  \/ (exists b, r !! None = Some (Utils.EBox b) /\
        Utils.assemble r None title df
        = Ok (<[None := Utils.EBox (<[title := df]> b)]> r))
  \/ (exists l', r !! None = Some (Utils.EList l') /\
        Utils.assemble r None title df = Raise TypeError).
Proof.
  intros Hk. unfold Utils.assemble. rewrite Hk. simpl.
  destruct (r !! None) as [[l'|b]|]; eauto.
Qed.

Lemma assemble_lists_empty (r r' : Utils.reports_t) (section : option string)
    (title : string) (df : DataFrame) :
  Utils.assemble r section title df = Ok r' -> lists_empty r -> lists_empty r'.
Proof.
  unfold Utils.assemble. intros Hrun Hr.
  destruct (bool_decide (section = None)
            && negb (bool_decide (is_Some (r !! Some title)))).
  - injection Hrun as <-. apply lists_empty_insert; [exact Hr |].
    now intros l [= <-].
  - destruct (r !! section) as [[l|b]|]; try discriminate;
      injection Hrun as <-; (apply lists_empty_insert; [exact Hr | discriminate]).
Qed.

Lemma assemble_all_lists_empty
    (items : list (result (option string * string * DataFrame))) :
  forall r r' : Utils.reports_t,
    Utils.assemble_all items r = Ok r' -> lists_empty r -> lists_empty r'.
Proof.
  induction items as [|[[[section title] df]|x] items IH]; intros r r' Hrun Hr.
  - injection Hrun as <-. exact Hr.
  - cbn [Utils.assemble_all] in Hrun.
    destruct (Utils.assemble r section title df) as [r1|] eqn:E; [| discriminate].
    apply (IH r1 r' Hrun). now apply (assemble_lists_empty r r1 section title df).
  - discriminate.
Qed.

End ReportFacts.

(** C2 (the code departs from the claim): whatever the report, no
    sequence of the top level ever receives a table.  The first table of a
    title without section creates the empty sequence and is dropped
    ([assemble_first]); every later one is stored at
    [reports[None][title]], replacing the one before ([assemble_again]). *)
Theorem top_level_sequences_stay_empty `{Pandas}
    (soup : Soup.node) (reports : Utils.reports_t)
    (key : option string) (tables : list DataFrame) :
  Utils.process_eplus_html_report soup = Ok reports ->
  reports !! key = Some (Utils.EList tables) ->
  tables = [].
Proof.
  intros Hrun Hkey.
  apply (assemble_all_lists_empty _ ∅ reports Hrun lists_empty_empty key tables Hkey).
Qed.

Definition table_of (cell : string) : Soup.node :=
  Soup.Tag "table" [Soup.Tag "tr" [Soup.Tag "td" [Soup.Text cell]]].

Definition page (body : list Soup.node) : Soup.node :=
  Soup.Tag "[document]" [Soup.Tag "html" [Soup.Tag "body" body]].

(** Two tables under the same bold title, and no report marker. *)
Definition two_zone_tables : Soup.node :=
  page [ Soup.Tag "b" [Soup.Text "Zone"]; table_of "first";
         Soup.Tag "b" [Soup.Text "Zone"]; table_of "second" ].

Lemma top_level_sequences_stay_empty_witness :
  Utils.process_eplus_html_report (H := SimplePandas.simple_pandas) two_zone_tables
  = Ok (<[None := Utils.EBox {["Zone" := [["second"]]]}]>
          {[Some "Zone" := Utils.EList []]}) /\
  ([] : list (list (list string))) = [].
Proof.
  assert (Hrun :
    Utils.process_eplus_html_report (H := SimplePandas.simple_pandas) two_zone_tables
    = Ok (<[None := Utils.EBox {["Zone" := [["second"]]]}]>
            {[Some "Zone" := Utils.EList []]})).
  { vm_compute. reflexivity. }
  split; [exact Hrun |].
  symmetry.
  apply (top_level_sequences_stay_empty (H := SimplePandas.simple_pandas)
           two_zone_tables _ (Some "Zone") [] Hrun).
  vm_compute. reflexivity.
Defined.

(** One table under the bold title [Building Area], no report marker:
    the section is absent and the top level has the key [Building Area]. *)
Example building_area_report :
  Utils._eplus_html_report_gen (H := SimplePandas.simple_pandas)
    (page [Soup.Tag "b" [Soup.Text "Building Area"]; table_of "12"])
  = [Ok (None, "Building Area", [["12"]])] /\
  Utils.process_eplus_html_report (H := SimplePandas.simple_pandas)
    (page [Soup.Tag "b" [Soup.Text "Building Area"]; table_of "12"])
  = Ok {[Some "Building Area" := Utils.EList []]}.
Proof. split; vm_compute; reflexivity. Qed.

Section MarkerFacts.
Context `{Pandas}.

Lemma section_of_total (soup : Soup.node) (table : Soup.path) :
  exists section, Utils.section_of soup table = Ok section.
Proof.
  unfold Utils.section_of, Utils.section_chain, Utils.getattr.
  destruct (Soup.find_previous_text Utils.re_section soup table) as [marker|];
    [| eauto].
  destruct (Soup.find_next_sibling "b" soup marker); eauto.
Qed.

Lemma report_item_without_title (soup : Soup.node) (table : Soup.path) :
  Soup.find_previous_sibling "b" soup table = None ->
  Utils.report_item soup table = Raise AttributeError.
Proof.
  intros Hb. unfold Utils.report_item, Utils.title_of, Utils.getattr.
  destruct (section_of_total soup table) as [section ->]. now rewrite Hb.
Qed.

(** The loop stops at the first exception of the generator. *)
Lemma assemble_all_raises
    (items : list (result (option string * string * DataFrame))) :
  forall r : Utils.reports_t,
    Exists (fun it => exists x, it = Raise x) items ->
    exists x, Utils.assemble_all items r = Raise x.
Proof.
  induction items as [|[[[section title] df]|x] items IH]; intros r Hex.
  - inversion Hex.
  - cbn [Utils.assemble_all].
    destruct (Utils.assemble r section title df) as [r1|x]; [| eauto].
    apply IH. inversion Hex as [? ? [x Hx] | ? ? Hrest]; subst;
      [discriminate | exact Hrest].
  - simpl. eauto.
Qed.

End MarkerFacts.

(** C6, as stated, fails: a table that no bold element precedes among
    its siblings has no title, and the whole conversion raises
    [AttributeError]. *)
Lemma missing_title_raises :
  Utils.section_of (page [table_of "x"]) [0; 0; 0] = Ok None /\
  Utils.title_of (page [table_of "x"]) [0; 0; 0] = Raise AttributeError /\
  Utils.process_eplus_html_report (H := SimplePandas.simple_pandas)
    (page [table_of "x"])
  = Raise AttributeError.
Proof. repeat split; vm_compute; reflexivity. Qed.

(** C6, amended: for every table, finding the section never raises; the
    section is absent when no string holding the report marker precedes
    the table, and when the nearest such string has no bold sibling after
    it.  The title is the text of the nearest bold sibling before the
    table; a table without one makes the generator raise
    [AttributeError], and with it the whole conversion fails. *)
Theorem missing_section_degrades `{Pandas} (soup : Soup.node) :
  (forall table : Soup.path,
      (exists section, Utils.section_of soup table = Ok section) /\
      (Soup.find_previous_text Utils.re_section soup table = None ->
       Utils.section_of soup table = Ok None) /\
      (forall marker,
          Soup.find_previous_text Utils.re_section soup table = Some marker ->
          Soup.find_next_sibling "b" soup marker = None ->
          Utils.section_of soup table = Ok None) /\
      (forall b,
          Soup.find_previous_sibling "b" soup table = Some b ->
          Utils.title_of soup table = Ok (Soup.get_text b)) /\
      (Soup.find_previous_sibling "b" soup table = None ->
       Utils.title_of soup table = Raise AttributeError /\
       Utils.report_item soup table = Raise AttributeError)) /\
  (Exists (fun table => Soup.find_previous_sibling "b" soup table = None)
          (Soup.find_all "table" soup) ->
   exists x, Utils.process_eplus_html_report soup = Raise x).
Proof.
  split.
  - intros table. split; [apply section_of_total |].
    unfold Utils.section_of, Utils.section_chain, Utils.title_of, Utils.getattr.
    split; [now intros -> |]. split; [now intros marker -> -> |].
    split; [now intros b -> |].
    intros Hb. split; [now rewrite Hb | now apply report_item_without_title].
  - intros Hex. apply assemble_all_raises. unfold Utils._eplus_html_report_gen.
    apply List.Exists_exists in Hex as (table & Hin & Hb).
    apply List.Exists_exists. exists (Utils.report_item soup table). split.
    + now apply in_map.
    + exists AttributeError. now apply report_item_without_title.
Qed.

(** ** The installer manager *)

Import EnvManager.

(** A Linux host with the given files, a server that serves the installer
    as a binary, and an installer that answers every prompt. *)
Definition linux_host (files : fs_t) (content_type : option string) : world :=
  {| platform_system := "Linux";
     cwd := ["home"; "user"];
     fs := files;
     head_content_type := fun _ => content_type;
     get_body := fun _ => "#!/bin/sh";
     tmp_dir := ["tmp"; "tmp0"];
     expect_reply := fun _ _ => Ok tt;
     install_effect := fun _ f => f;
     events := [] |}.

Definition with_platform (system : string) (w : world) : world :=
  {| platform_system := system; cwd := cwd w; fs := fs w;
     head_content_type := head_content_type w; get_body := get_body w;
     tmp_dir := tmp_dir w; expect_reply := expect_reply w;
     install_effect := install_effect w; events := events w |}.

Definition release_url : string :=
  "https://github.com/NREL/EnergyPlus/releases/download/v9.4.0/"
  ++ "EnergyPlus-9.4.0-998c4b761e-Linux-Ubuntu18.04-x86_64.sh".

(** C9: on a platform other than Linux, [ensure_eplus_root] raises the
    [ValueError] that names the platform, and the world is exactly as it
    was: no directory is made, no lock taken, nothing is requested from the
    network and no installer is run. *)
Theorem ensure_eplus_root_unsupported_platform
    (url : string) (eplus_folder : Path) (installer_cache : option Path)
    (w : world) :
  platform_system w <> "Linux" ->
  ensure_eplus_root url eplus_folder installer_cache w
  = (Raise (ValueError (unsupported (platform_system w))), w).
Proof.
  intros Hsys. unfold ensure_eplus_root, bind, get, raise.
  destruct (String.eqb_spec (platform_system w) "Linux"); [contradiction | reflexivity].
Qed.

Lemma ensure_eplus_root_unsupported_platform_witness :
  ensure_eplus_root release_url (path_of_string "/opt/eplus") None
    (with_platform "Windows" (linux_host ∅ (Some "application/x-sh")))
  = (Raise (ValueError ("Your system (Windows) is not supported yet."
                        ++ " You have to install EnergyPlus by yourself.")),
     with_platform "Windows" (linux_host ∅ (Some "application/x-sh"))).
Proof.
  apply (ensure_eplus_root_unsupported_platform release_url
           (path_of_string "/opt/eplus") None
           (with_platform "Windows" (linux_host ∅ (Some "application/x-sh")))).
  discriminate.
Defined.

(** *** The download *)

Definition not_downloadable : exn := ValueError "URL is not a downloadable file.".

(** C8, as stated, fails: a response without [content-type] header names
    neither text nor html, and the download is refused all the same. *)
Lemma download_refused_without_header :
  head_content_type (linux_host ∅ None) release_url = None /\
  _download_eplus_version release_url (path_of_string "/tmp/setup.sh")
    (linux_host ∅ None)
  = (Raise not_downloadable, add_event (Head release_url) (linux_host ∅ None)).
Proof. split; reflexivity. Qed.

(** The header that makes the check fail. *)
Definition refused (content_type : option string) : bool :=
  match content_type with
  | None => true
  | Some c =>
      PyStr.contains "text" (PyStr.lower c) || PyStr.contains "html" (PyStr.lower c)
  end.

Lemma refused_spec (content_type : option string) :
  refused content_type = true
  <-> content_type = None
      \/ exists c, content_type = Some c /\
            (PyStr.contains "text" (PyStr.lower c) = true
             \/ PyStr.contains "html" (PyStr.lower c) = true).
Proof.
  destruct content_type as [c|]; simpl.
  - rewrite orb_true_iff. split.
    + intros Hc. right. exists c. auto.
    + intros [? | (c' & [= <-] & Hc)]; [discriminate | exact Hc].
  - split; auto.
Qed.

Lemma is_downloadable_run (url : string) (w : world) :
  _is_downloadable url w
  = (Ok (negb (refused (head_content_type w url))), add_event (Head url) w).
Proof.
  unfold _is_downloadable, head_content_type_of, bind, ret, refused.
  destruct (head_content_type w url) as [c|]; [| reflexivity].
  destruct (PyStr.contains "text" (PyStr.lower c)); [reflexivity |].
  destruct (PyStr.contains "html" (PyStr.lower c)); reflexivity.
Qed.

Lemma download_run (url : string) (path : Path) (w : world) :
  _download_eplus_version url path w
  = if refused (head_content_type w url)
    then (Raise not_downloadable, add_event (Head url) w)
    else write_bytes path (get_body w url)
           (add_event (Get url) (add_event (Head url) w)).
Proof.
  unfold _download_eplus_version, bind. rewrite is_downloadable_run.
  destruct (refused (head_content_type w url)); reflexivity.
Qed.

Lemma open_parents_raises (todo : list string) :
  forall (done : list string) (f : fs_t) (e : exn),
    open_parents done todo f = Raise e ->
    e = NotADirectoryError \/ e = FileNotFoundError.
Proof.
  induction todo as [|c todo IH]; intros done f e; simpl; [discriminate |].
  destruct todo as [|c' todo]; [discriminate |].
  destruct (f !! (done ++ [c])%list) as [[|bytes]|].
  - apply IH.
  - intros [= <-]. now left.
  - intros [= <-]. now right.
Qed.

Lemma write_bytes_run (path : Path) (data : string) (w : world) :
  fst (write_bytes path data w) <> Raise not_downloadable /\
  events (snd (write_bytes path data w))
  = (events w ++ [WriteFile (resolve w path)])%list.
Proof.
  unfold write_bytes.
  destruct (open_parents [] (resolve w path) (fs w)) as [[]|e] eqn:E.
  - destruct (is_dir (fs w) (resolve w path)); split; (discriminate || reflexivity).
  - split; [| reflexivity].
    apply open_parents_raises in E as [-> | ->]; discriminate.
Qed.

(** C8, amended: the download is refused with the [ValueError] exactly
    when the HEAD response has no [content-type] header or when that
    header, in lower case, contains [text] or [html]; it is refused before
    any GET.  Otherwise the GET follows the HEAD and its body is written
    to the path. *)
Theorem download_refused_iff (url : string) (path : Path) (w : world) :
  (fst (_download_eplus_version url path w) = Raise not_downloadable
   <-> head_content_type w url = None
       \/ exists content_type,
            head_content_type w url = Some content_type /\
            (PyStr.contains "text" (PyStr.lower content_type) = true
             \/ PyStr.contains "html" (PyStr.lower content_type) = true)) /\
  (fst (_download_eplus_version url path w) = Raise not_downloadable ->
   snd (_download_eplus_version url path w) = add_event (Head url) w) /\
  (fst (_download_eplus_version url path w) <> Raise not_downloadable ->
   events (snd (_download_eplus_version url path w))
   = (events w ++ [Head url; Get url; WriteFile (resolve w path)])%list).
Proof.
  rewrite <- refused_spec, download_run.
  destruct (write_bytes_run path (get_body w url)
              (add_event (Get url) (add_event (Head url) w))) as [Hne Hev].
  destruct (refused (head_content_type w url)).
  - split; [| split]; [split; reflexivity | reflexivity | now intros []].
  - split; [| split].
    + split; [intros Hr; now destruct Hne | discriminate].
    + intros Hr. now destruct Hne.
    + intros _. rewrite Hev. simpl. now rewrite <- !app_assoc.
Qed.

(** *** The scripted installation *)

(** What the child process is asked, in the order of the source. *)
Definition dialogue (eplus_folder : string) : list event :=
  [Expect CRLF; SendLine "y"; SendLine eplus_folder; Expect CRLF;
   SendLine "n"; Expect EOF].

(** The dialogue as the specification words it, a wait before every
    answer. *)
Definition spec_dialogue (eplus_folder : string) : list event :=
  [Expect CRLF; SendLine "y"; Expect CRLF; SendLine eplus_folder;
   Expect CRLF; SendLine "n"; Expect EOF].

(** C4, as stated, fails: the installer is not made to wait between the
    license answer and the folder. *)
Lemma install_dialogue_does_not_alternate :
  events (snd (_extract_and_install "/tmp/setup.sh" "/opt/eplus"
                 (linux_host ∅ None)))
  = [Spawn "bash /tmp/setup.sh"; Expect CRLF; SendLine "y";
     SendLine "/opt/eplus"; Expect CRLF; SendLine "n"; Expect EOF; Close] /\
  spec_dialogue "/opt/eplus"
  = [Expect CRLF; SendLine "y"; Expect CRLF; SendLine "/opt/eplus";
     Expect CRLF; SendLine "n"; Expect EOF].
Proof. split; reflexivity. Qed.

(** C4, amended: the session is spawned, runs a prefix of the dialogue
    (wait for a line end, send [y], send the target folder at once, wait
    for the next line end, send [n], wait for the end of the process) and
    is closed; the prefix stops after the first wait that fails, and it is
    the whole dialogue when the installation returns. *)
Theorem install_dialogue (setup_script eplus_folder : string) (w : world) :
  exists n : nat,
    events (snd (_extract_and_install setup_script eplus_folder w))
    = (events w ++ Spawn ("bash " ++ setup_script)
         :: firstn n (dialogue eplus_folder) ++ [Close])%list /\
    (fst (_extract_and_install setup_script eplus_folder w) = Ok tt -> n = 6) /\
    (n = 1 \/ n = 4 \/ n = 6).
Proof.
  unfold _extract_and_install, with_spawn, finally, bind, log, modify, expect,
    sendline. cbn.
  destruct (expect_reply w _ CRLF) as [[]|x1]; cbn.
  2:{ exists 1. rewrite <- !app_assoc. cbn. split; [reflexivity |].
      split; [discriminate | auto]. }
  destruct (expect_reply w _ CRLF) as [[]|x2]; cbn.
  2:{ exists 4. rewrite <- !app_assoc. cbn. split; [reflexivity |].
      split; [discriminate | auto]. }
  destruct (expect_reply w _ EOF) as [[]|x3]; cbn;
    exists 6; rewrite <- !app_assoc; cbn; (split; [reflexivity |]);
    (split; [reflexivity || discriminate | auto]).
Qed.

(** ** Regular expressions: what a match is *)

Import Re.

Fixpoint all_chars (P : ascii -> bool) (s : string) : bool :=
  match s with
  | "" => true
  | String c s' => P c && all_chars P s'
  end.

Definition record_group (name : option string) (text : string) (g : groups)
    : groups :=
  match name with
  | Some n => <[n := text]> g
  | None => g
  end.

(** [matches r s rest g g']: the pattern [r] can match the text [s] when
    [rest] follows it, and its groups turn [g] into [g']. *)
Inductive matches : re -> string -> string -> groups -> groups -> Prop :=
| MLit l rest g :
    matches (Lit l) l rest g g
| MOne k c rest g :
    in_cls k c = true -> matches (One k) (String c "") rest g g
| MStarLazy k s rest g :
    all_chars (in_cls k) s = true -> matches (StarLazy k) s rest g g
| MStarGreedy k s rest g :
    all_chars (in_cls k) s = true -> matches (StarGreedy k) s rest g g
| MPlus k s rest g :
    s <> "" -> all_chars (in_cls k) s = true ->
    matches (PlusGreedy k) s rest g g
| MSeq r1 r2 s1 s2 rest g g1 g2 :
    matches r1 s1 (s2 ++ rest) g g1 -> matches r2 s2 rest g1 g2 ->
    matches (Seq r1 r2) (s1 ++ s2) rest g g2
| MGroup name r s rest g g1 :
    matches r s rest g g1 ->
    matches (Group name r) s rest g (record_group name s g1)
| MEnd rest g :
    at_end rest = true -> matches End "" rest g g.

Section MatcherFacts.

Lemma strip_prefix_sound (p : string) : forall s s' : string,
  strip_prefix p s = Some s' -> s = p ++ s'.
Proof.
  induction p as [|a p IH]; intros s s' Hs; simpl in Hs.
  - now injection Hs as ->.
  - destruct s as [|b s]; [discriminate |].
    destruct (Ascii.eqb_spec a b) as [->|]; [| discriminate].
    simpl. f_equal. now apply IH.
Qed.

Lemma strip_prefix_append (p s : string) : strip_prefix p (p ++ s) = Some s.
Proof.
  induction p as [|a p IH]; simpl; [reflexivity |].
  now rewrite Ascii.eqb_refl.
Qed.

Lemma consumed_append (s rest : string) : consumed (s ++ rest) rest = s.
Proof.
  unfold consumed. rewrite length_append.
  replace (String.length s + String.length rest - String.length rest)
    with (String.length s) by lia.
  induction s as [|c s IH]; simpl.
  - now destruct rest.
  - now rewrite IH.
Qed.

Lemma lazy_star_sound {A} (P : ascii -> bool) (k : string -> option A) :
  forall (s : string) (r : A),
    lazy_star P s k = Some r ->
    exists x rest, s = x ++ rest /\ all_chars P x = true /\ k rest = Some r.
Proof.
  induction s as [|c s IH]; intros r Hr; simpl in Hr.
  - destruct (k "") eqn:E; [| discriminate]. injection Hr as ->.
    exists "", "". auto.
  - destruct (k (String c s)) eqn:E.
    + injection Hr as ->. exists "", (String c s). auto.
    + destruct (P c) eqn:Hc; [| discriminate].
      destruct (IH r Hr) as (x & rest & -> & Hx & Hk).
      exists (String c x), rest. simpl. rewrite Hc. auto.
Qed.

Lemma greedy_star_sound {A} (P : ascii -> bool) (k : string -> option A) :
  forall (s : string) (r : A),
    greedy_star P s k = Some r ->
    exists x rest, s = x ++ rest /\ all_chars P x = true /\ k rest = Some r.
Proof.
  induction s as [|c s IH]; intros r Hr; simpl in Hr.
  - exists "", "". auto.
  - destruct (P c) eqn:Hc.
    + destruct (greedy_star P s k) as [r'|] eqn:E.
      * injection Hr as ->.
        destruct (IH r eq_refl) as (x & rest & -> & Hx & Hk).
        exists (String c x), rest. simpl. rewrite Hc. auto.
      * exists "", (String c s). auto.
    + exists "", (String c s). auto.
Qed.

Lemma lazy_star_complete {A} (P : ascii -> bool) (k : string -> option A)
    (rest : string) (r : A) :
  k rest = Some r ->
  forall x : string, all_chars P x = true ->
    exists r', lazy_star P (x ++ rest) k = Some r'.
Proof.
  intros Hk. induction x as [|c x IH]; intros Hx.
  - simpl. destruct rest; simpl; rewrite Hk; eauto.
  - simpl in Hx. apply andb_true_iff in Hx as [Hc Hx].
    simpl. destruct (k (String c (x ++ rest))); [eauto |].
    rewrite Hc. now apply IH.
Qed.

Lemma greedy_star_complete {A} (P : ascii -> bool) (k : string -> option A)
    (rest : string) (r : A) :
  k rest = Some r ->
  forall x : string, all_chars P x = true ->
    exists r', greedy_star P (x ++ rest) k = Some r'.
Proof.
  intros Hk. induction x as [|c x IH]; intros Hx.
  - simpl. destruct rest as [|a rest]; simpl; [eauto |].
    destruct (P a); [| eauto].
    destruct (greedy_star P rest k); eauto.
  - simpl in Hx. apply andb_true_iff in Hx as [Hc Hx].
    simpl. rewrite Hc. destruct (IH Hx) as [r' ->]. eauto.
Qed.

(** Whatever the search returns comes from a match. *)
Lemma exec_sound (r : re) :
  forall (inp : string) (g : groups) (k : string -> groups -> option groups)
         (res : groups),
    exec r inp g k = Some res ->
    exists s rest g',
      inp = s ++ rest /\ matches r s rest g g' /\ k rest g' = Some res.
Proof.
  induction r as [l | c | c | c | c | r1 IH1 r2 IH2 | name r IH |];
    intros inp g k res Hrun; cbn [exec] in Hrun.
  - destruct (strip_prefix l inp) as [s'|] eqn:E; [| discriminate].
    apply strip_prefix_sound in E as ->.
    exists l, s', g. split; [reflexivity |]. split; [constructor | exact Hrun].
  - destruct inp as [|a s']; [discriminate |].
    destruct (in_cls c a) eqn:Hc; [| discriminate].
    exists (String a ""), s', g. split; [reflexivity |].
    split; [now constructor | exact Hrun].
  - apply lazy_star_sound in Hrun as (x & rest & -> & Hx & Hk).
    exists x, rest, g. split; [reflexivity |]. split; [now constructor | exact Hk].
  - apply greedy_star_sound in Hrun as (x & rest & -> & Hx & Hk).
    exists x, rest, g. split; [reflexivity |]. split; [now constructor | exact Hk].
  - destruct inp as [|a s']; [discriminate |].
    destruct (in_cls c a) eqn:Hc; [| discriminate].
    apply greedy_star_sound in Hrun as (x & rest & -> & Hx & Hk).
    exists (String a x), rest, g. split; [reflexivity |].
    split; [| exact Hk]. constructor; [discriminate |].
    simpl. now rewrite Hc.
  - apply IH1 in Hrun as (s1 & rest1 & g1 & -> & H1 & Hrun).
    apply IH2 in Hrun as (s2 & rest & g2 & -> & H2 & Hk).
    exists (s1 ++ s2), rest, g2. split; [now rewrite append_assoc |].
    split; [now apply MSeq with g1 | exact Hk].
  - apply IH in Hrun as (s & rest & g1 & -> & H1 & Hk).
    rewrite consumed_append in Hk.
    exists s, rest, (record_group name s g1). split; [reflexivity |].
    split; [now constructor | exact Hk].
  - destruct (at_end inp) eqn:E; [| discriminate].
    exists "", inp, g. split; [reflexivity |]. split; [now constructor | exact Hrun].
Qed.

(** Whenever there is a match that the continuation accepts, the search
    returns (possibly another match, found earlier). *)
Lemma exec_complete (r : re) (s rest : string) (g g' : groups) :
  matches r s rest g g' ->
  forall (k : string -> groups -> option groups) (res : groups),
    k rest g' = Some res ->
    exists res', exec r (s ++ rest) g k = Some res'.
Proof.
  induction 1 as [l rest g | c a rest g Hc | c s rest g Hs | c s rest g Hs
                 | c s rest g Hne Hs
                 | r1 r2 s1 s2 rest g g1 g2 _ IH1 _ IH2
                 | name r s rest g g1 _ IH | rest g He];
    intros k res Hk; cbn [exec].
  - rewrite strip_prefix_append. eauto.
  - simpl. rewrite Hc. eauto.
  - apply (lazy_star_complete _ (fun s' => k s' g) rest res Hk s Hs).
  - apply (greedy_star_complete _ (fun s' => k s' g) rest res Hk s Hs).
  - destruct s as [|a s]; [congruence |].
    simpl in Hs. apply andb_true_iff in Hs as [Ha Hs].
    simpl. rewrite Ha.
    apply (greedy_star_complete _ (fun s' => k s' g) rest res Hk s Hs).
  - destruct (IH2 k res Hk) as [res2 H2].
    rewrite append_assoc.
    apply (IH1 (fun s' g' => exec r2 s' g' k) res2 H2).
  - apply (IH _ res). rewrite consumed_append. exact Hk.
  - simpl. rewrite He. eauto.
Qed.

End MatcherFacts.

(** ** The installer's file name *)

Definition digits (d : string) : Prop :=
  d <> "" /\ all_chars is_digit d = true.

Definition no_line_feed (s : string) : Prop :=
  all_chars (in_cls Dot) s = true.

(** A version as the pattern reads it: three runs of digits, with one
    character (any but a line feed) between two of them. *)
Definition is_version (v : string) : Prop :=
  exists d1 c1 d2 c2 d3,
    v = d1 ++ String c1 (d2 ++ String c2 d3) /\
    digits d1 /\ digits d2 /\ digits d3 /\
    in_cls Dot c1 = true /\ in_cls Dot c2 = true.

(** The language of [eplus_filename_pattern] as it is written (not the
    grammar of the specification, see [spec_installer_url]): [url] ends
    with [EnergyPlus-<version>-<revision>-<platform>?sh], where [?] is one
    character; a single line feed may follow. *)
Definition names_installer (url filename version revision platform : string)
    : Prop :=
  exists (pre : string) (c : ascii) (tail : string),
    url = pre ++ filename ++ tail /\
    filename = "EnergyPlus-" ++ version ++ "-" ++ revision ++ "-"
               ++ platform ++ String c "sh" /\
    no_line_feed pre /\
    is_version version /\
    (revision <> "" /\ all_chars is_word revision = true) /\
    no_line_feed platform /\
    in_cls Dot c = true /\
    at_end tail = true.

Definition installer_url (url : string) : Prop :=
  exists filename version revision platform,
    names_installer url filename version revision platform.

(** The mapping returned for a match: all four fields. *)
Definition info (filename version revision platform : string) : groups :=
  <["filename" := filename]>
    (<["platform" := platform]>
       (<["revision" := revision]> (<["version" := version]> ∅))).

Ltac invert_matches :=
  repeat match goal with
    | H : matches (Seq _ _) _ _ _ _ |- _ => inversion H; subst; clear H
    | H : matches (Group _ _) _ _ _ _ |- _ => inversion H; subst; clear H
    | H : matches (Lit _) _ _ _ _ |- _ => inversion H; subst; clear H
    | H : matches (One _) _ _ _ _ |- _ => inversion H; subst; clear H
    | H : matches (StarLazy _) _ _ _ _ |- _ => inversion H; subst; clear H
    | H : matches (PlusGreedy _) _ _ _ _ |- _ => inversion H; subst; clear H
    | H : matches End _ _ _ _ |- _ => inversion H; subst; clear H
    end.

Section FilenameFacts.

Lemma pattern_match_names (s rest : string) (g : groups) :
  matches eplus_filename_pattern s rest ∅ g ->
  exists filename version revision platform,
    names_installer (s ++ rest) filename version revision platform /\
    g = info filename version revision platform.
Proof.
  unfold eplus_filename_pattern. intros Hm. invert_matches.
  match goal with
  | |- context [ "EnergyPlus-" ++ ?v ++ "-" ++ ?r ++ "-" ++ ?p ++ _ ] =>
      exists ("EnergyPlus-" ++ v ++ "-" ++ r ++ "-" ++ p ++ String c1 "sh"),
             v, r, p
  end.
  split; [| reflexivity].
  exists s1, c1, rest. repeat split; try assumption.
  - now rewrite append_nil_r, append_assoc.
  - do 5 eexists. repeat split; eassumption || reflexivity.
Qed.

End FilenameFacts.

Section GrammarFacts.

Definition version_pattern : re :=
  (PlusGreedy Digit · One Dot · PlusGreedy Digit · One Dot · PlusGreedy Digit)%re.

Lemma version_matches (v rest : string) (g : groups) :
  is_version v -> matches version_pattern v rest g g.
Proof.
  intros (d1 & c1 & d2 & c2 & d3 & -> & [N1 D1] & [N2 D2] & [N3 D3] & C1 & C2).
  unfold version_pattern.
  apply (MSeq _ _ d1 (String c1 (d2 ++ String c2 d3)) rest g g g);
    [now constructor |].
  apply (MSeq _ _ (String c1 "") (d2 ++ String c2 d3) rest g g g);
    [now constructor |].
  apply (MSeq _ _ d2 (String c2 d3) rest g g g); [now constructor |].
  apply (MSeq _ _ (String c2 "") d3 rest g g g); now constructor.
Qed.

Lemma names_pattern_match (url filename version revision platform : string) :
  names_installer url filename version revision platform ->
  exists s rest g,
    url = s ++ rest /\ matches eplus_filename_pattern s rest ∅ g.
Proof.
  intros (pre & c & tail & -> & -> & Hpre & Hv & [Nr Hr] & Hp & Hc & Htail).
  exists (pre ++ ("EnergyPlus-" ++ version ++ "-" ++ revision ++ "-"
                  ++ platform ++ String c "sh") ++ ""),
         tail.
  eexists. split; [rewrite append_nil_r; symmetry; apply append_assoc |].
  unfold eplus_filename_pattern.
  eapply MSeq; [now constructor |].
  eapply MSeq; [| now constructor].
  apply MGroup.
  eapply MSeq; [constructor |].
  eapply MSeq; [apply MGroup; now apply version_matches |].
  eapply MSeq; [constructor |].
  eapply MSeq; [apply MGroup; now constructor |].
  eapply MSeq; [constructor |].
  eapply MSeq; [apply MGroup; now constructor |].
  eapply (MSeq _ _ (String c "") "sh"); now constructor.
Qed.

(** On ASCII text the search finds a match exactly on the URLs of the
    pattern's language, and what it returns is one way to read the URL. *)
Lemma re_match_filename (url : string) :
  match re_match eplus_filename_pattern url with
  | Some g =>
      exists filename version revision platform,
        names_installer url filename version revision platform /\
        g = info filename version revision platform
  | None => ~ installer_url url
  end.
Proof.
  unfold re_match.
  destruct (exec eplus_filename_pattern url ∅ (fun _ g => Some g)) as [g|] eqn:E.
  - apply exec_sound in E as (s & rest & g' & -> & Hm & [= <-]).
    now apply pattern_match_names.
  - intros (f & v & r & p & Hn).
    apply names_pattern_match in Hn as (s & rest & g & -> & Hm).
    destruct (exec_complete _ _ _ _ _ Hm (fun _ g => Some g) g eq_refl) as [res Hres].
    congruence.
Qed.

End GrammarFacts.

(** *** The grammar of the specification *)

(** A run of decimal digits. *)
Definition decimal (s : string) : Prop :=
  s <> "" /\
  forall c, In c (list_ascii_of_string s) -> 48 <= nat_of_ascii c <= 57.

(** A version as the specification writes it: [9.4.0]. *)
Definition spec_version (v : string) : Prop :=
  exists major minor patch,
    v = major ++ "." ++ minor ++ "." ++ patch /\
    decimal major /\ decimal minor /\ decimal patch.

(** The installer URLs as the specification writes them:
    [.../EnergyPlus-<version>-<revision>-<platform>.sh]. *)
Definition spec_installer_url (url : string) : Prop :=
  exists pre version revision platform,
    url = pre ++ "EnergyPlus-" ++ version ++ "-" ++ revision ++ "-"
          ++ platform ++ ".sh" /\
    spec_version version /\ revision <> "".

Section SpecGrammarFacts.

Lemma endswith_append (p : string) (a : string) :
  PyStr.endswith p (a ++ p) = true.
Proof.
  induction a as [|c a IH]; simpl.
  - destruct p; simpl; [reflexivity |]. now rewrite Ascii.eqb_refl, String.eqb_refl.
  - rewrite IH. apply orb_true_r.
Qed.

(** A URL of the specification ends in [.sh]. *)
Lemma spec_installer_url_ends (url : string) :
  spec_installer_url url -> PyStr.endswith ".sh" url = true.
Proof.
  intros (pre & v & r & pl & -> & _ & _).
  rewrite <- !append_assoc. apply endswith_append.
Qed.

End SpecGrammarFacts.

(** C7 (the code departs from the claim): the dots of the pattern are
    not escaped, so a URL that is not of the specification's grammar is
    accepted and a mapping is returned for it.  The (ASCII) name
    [EnergyPlus-9x4y0-abc-Linux_sh] has no dotted version and does not end
    in [.sh]; [_extract_filename_info] returns its four fields, with the
    version [9x4y0].  (For the 9.4.0 release the version is [9.4.0].) *)
Theorem unescaped_dots_accept_malformed_name :
  is_ascii "EnergyPlus-9x4y0-abc-Linux_sh" = true /\
  ~ spec_installer_url "EnergyPlus-9x4y0-abc-Linux_sh" /\
  _extract_filename_info "EnergyPlus-9x4y0-abc-Linux_sh"
  = Ok (info "EnergyPlus-9x4y0-abc-Linux_sh" "9x4y0" "abc" "Linux") /\
  _extract_filename_info release_url
  = Ok (info "EnergyPlus-9.4.0-998c4b761e-Linux-Ubuntu18.04-x86_64.sh"
             "9.4.0" "998c4b761e" "Linux-Ubuntu18.04-x86_64").
Proof.
  split; [reflexivity |]. split; [| split].
  - intros Hurl. apply spec_installer_url_ends in Hurl. discriminate.
  - vm_compute. reflexivity.
  - vm_compute. reflexivity.
Qed.

(** ** The installation directory *)

Section RootFacts.

Lemma present_insert (f : fs_t) (k d : list string) (v : fs_entry) :
  present f d = true -> present (<[k := v]> f) d = true.
Proof.
  unfold present. destruct d as [|c d]; [reflexivity |].
  rewrite lookup_insert. case_decide; [reflexivity | easy].
Qed.

(** [mkdir] only adds directories. *)
Lemma mkdir_go_present (d : list string) (todo : list string) :
  forall (done : list string) (f f' : fs_t),
    mkdir_go done todo f = Ok f' -> present f d = true -> present f' d = true.
Proof.
  induction todo as [|c todo IH]; intros done f f' Hrun Hd; simpl in Hrun.
  - now injection Hrun as <-.
  - destruct (f !! (done ++ [c])%list) as [[|bytes]|] eqn:E.
    + now apply (IH _ _ _ Hrun).
    + destruct todo; discriminate.
    + apply (IH _ _ _ Hrun). now apply present_insert.
Qed.

Lemma info_filename (f v r p : string) : info f v r p !! "filename" = Some f.
Proof. unfold info. apply lookup_insert_eq. Qed.

Lemma info_version (f v r p : string) : info f v r p !! "version" = Some v.
Proof.
  unfold info. rewrite !lookup_insert_ne by discriminate.
  apply lookup_insert_eq.
Qed.

End RootFacts.

(** The cross-process lock file is created when it is missing. *)
Definition acquired (lock : list string) (w : world) : world :=
  set_fs (fun f => match f !! lock with
                   | None => <[lock := File ""]> f
                   | Some _ => f
                   end)
         (add_event (LockAcquire lock) w).

Section FastPath.

Lemma locked_section_existing (url : string) (eplus_folder : Path)
    (installer_cache : option Path) (w : world)
    (filename version revision platform : string) :
  _extract_filename_info url = Ok (info filename version revision platform) ->
  present (fs w) (resolve w (expected_folder eplus_folder version)) = true ->
  locked_section url eplus_folder installer_cache w
  = (Ok {| is_absolute := true;
           parts := resolve w (expected_folder eplus_folder version) |}, w).
Proof.
  intros Hinfo Hthere.
  cbv beta iota delta [locked_section bind lift]. rewrite Hinfo.
  cbv beta iota delta [getitem]. rewrite info_filename.
  cbv beta iota delta [ret]. rewrite info_version.
  cbv beta iota zeta delta [ret py_and bind exists_]. rewrite Hthere.
  reflexivity.
Qed.

Lemma ensure_eplus_root_on_linux (url : string) (eplus_folder : Path)
    (installer_cache : option Path) (w : world) (made : fs_t) :
  platform_system w = "Linux" ->
  mkdir_go [] (resolve w eplus_folder) (fs w) = Ok made ->
  ensure_eplus_root url eplus_folder installer_cache w
  = finally (locked_section url eplus_folder installer_cache)
      (log (LockRelease (resolve w (joinpath eplus_folder ".lock"))))
      (acquired (resolve w (joinpath eplus_folder ".lock"))
         (set_fs (fun _ => made) (add_event (Mkdir (resolve w eplus_folder)) w))).
Proof.
  intros Hsys Hmk.
  cbv beta iota delta [ensure_eplus_root bind get]. rewrite Hsys.
  change (negb (String.eqb "Linux" "Linux")) with false.
  cbv beta iota delta [mkdir]. rewrite Hmk. reflexivity.
Qed.

End FastPath.

(** C1 (the code departs from the claim): on Linux, once the URL is
    parsed, an expected directory that exists is returned at once whatever
    it holds, so also when it is empty: the value of [glob("*")] is a
    generator, which is true even when it yields nothing.  Nothing is
    removed, downloaded or run; the events are the [mkdir] of the target
    folder and the taking and release of the lock. *)
Theorem existing_directory_is_returned_unchecked
    (url : string) (eplus_folder : Path) (installer_cache : option Path)
    (w : world) (filename version revision platform : string) (made : fs_t) :
  platform_system w = "Linux" ->
  _extract_filename_info url = Ok (info filename version revision platform) ->
  mkdir_go [] (resolve w eplus_folder) (fs w) = Ok made ->
  present (fs w) (resolve w (expected_folder eplus_folder version)) = true ->
  fst (ensure_eplus_root url eplus_folder installer_cache w)
  = Ok {| is_absolute := true;
          parts := resolve w (expected_folder eplus_folder version) |} /\
  events (snd (ensure_eplus_root url eplus_folder installer_cache w))
  = (events w ++ [Mkdir (resolve w eplus_folder);
                  LockAcquire (resolve w (joinpath eplus_folder ".lock"));
                  LockRelease (resolve w (joinpath eplus_folder ".lock"))])%list.
Proof.
  intros Hsys Hinfo Hmk Hthere.
  rewrite (ensure_eplus_root_on_linux url eplus_folder installer_cache w made Hsys Hmk).
  unfold finally.
  rewrite (locked_section_existing url eplus_folder installer_cache _
             filename version revision platform Hinfo).
  - split; [reflexivity |]. cbn. now rewrite <- !app_assoc.
  - apply (mkdir_go_present _ _ _ _ _ Hmk) in Hthere.
    change (present
              match made !! resolve w (joinpath eplus_folder ".lock") with
              | None => <[resolve w (joinpath eplus_folder ".lock") := File ""]> made
              | Some _ => made
              end
              (resolve w (expected_folder eplus_folder version)) = true).
    destruct (made !! resolve w (joinpath eplus_folder ".lock"));
      [exact Hthere | now apply present_insert].
Qed.

(** The target folder holds an empty directory for the 9.4.0 release. *)
Definition empty_remnant : fs_t :=
  {[ ["opt"] := Dir; ["opt"; "eplus"] := Dir;
     ["opt"; "eplus"; "EnergyPlus-9-4-0"] := Dir ]}.

Lemma existing_directory_is_returned_unchecked_witness :
  children empty_remnant ["opt"; "eplus"; "EnergyPlus-9-4-0"] = [] /\
  fst (ensure_eplus_root release_url (path_of_string "/opt/eplus") None
         (linux_host empty_remnant (Some "application/x-sh")))
  = Ok {| is_absolute := true; parts := ["opt"; "eplus"; "EnergyPlus-9-4-0"] |} /\
  events (snd (ensure_eplus_root release_url (path_of_string "/opt/eplus") None
                 (linux_host empty_remnant (Some "application/x-sh"))))
  = [Mkdir ["opt"; "eplus"]; LockAcquire ["opt"; "eplus"; ".lock"];
     LockRelease ["opt"; "eplus"; ".lock"]].
Proof.
  split; [vm_compute; reflexivity |].
  apply (existing_directory_is_returned_unchecked release_url
           (path_of_string "/opt/eplus") None
           (linux_host empty_remnant (Some "application/x-sh"))
           "EnergyPlus-9.4.0-998c4b761e-Linux-Ubuntu18.04-x86_64.sh"
           "9.4.0" "998c4b761e" "Linux-Ubuntu18.04-x86_64" empty_remnant).
  - reflexivity.
  - vm_compute. reflexivity.
  - vm_compute. reflexivity.
  - vm_compute. reflexivity.
Defined.

(** * Further properties of the converter *)

Section TimeSeriesMore.
Context `{Pandas}.
Implicit Types (wd : Utils.directory) (e : Utils.dir_entry).

(** Whether [pd.read_csv] returns a table for the file. *)
Definition parses e : bool :=
  match read_csv (Utils.entry_bytes e) with
  | Ok _ => true
  | Raise _ => false
  end.

(** What the loop stores for a file that can be read as text. *)
Definition stored e : Utils.series :=
  match read_csv (Utils.entry_bytes e) with
  | Ok df => Utils.Table df
  | Raise _ => Utils.RawText (TextIO.universal_newlines (Utils.entry_bytes e))
  end.

(** The three outcomes of the [try] statement. *)
Lemma load_series_run wd e (ws : list string) :
  Utils.load_series wd e ws
  = if TextIO.utf8_valid (Utils.entry_bytes e)
    then (Ok (stored e),
          if parses e then ws else (ws ++ [fallback_warning wd e])%list)
    else (Raise UnicodeDecodeError, (ws ++ [fallback_warning wd e])%list).
Proof.
  unfold Utils.load_series, try_except, lift, bind, Utils.warn, modify,
    stored, parses, read_csv, TextIO.read_text, TextIO.utf8_decode,
    fallback_warning.
  destruct (TextIO.utf8_valid (Utils.entry_bytes e)); [| reflexivity].
  destruct (csv_table (Utils.entry_bytes e)); reflexivity.
Qed.

(** The mapping and the warnings of a loop that comes to its end. *)
Fixpoint stored_all (fs : list Utils.dir_entry) (m : gmap string Utils.series)
    : gmap string Utils.series :=
  match fs with
  | [] => m
  | e :: fs' => stored_all fs' (<[key_of e := stored e]> m)
  end.

Lemma time_series_loop_total wd (fs : list Utils.dir_entry) :
  forall (m0 : gmap string Utils.series) (ws : list string),
    Forall (fun e => TextIO.utf8_valid (Utils.entry_bytes e) = true) fs ->
    Utils.time_series_loop wd fs m0 ws
    = (Ok (stored_all fs m0),
       (ws ++ map (fallback_warning wd)
                  (List.filter (fun e => negb (parses e)) fs))%list).
Proof.
  induction fs as [|e fs IH]; intros m0 ws Hall.
  - simpl. unfold ret. now rewrite app_nil_r.
  - inversion Hall as [|? ? He Hrest]; subst.
    cbn [Utils.time_series_loop]. unfold bind.
    rewrite load_series_run, He. rewrite (IH _ _ Hrest).
    unfold key_of. f_equal. simpl.
    destruct (parses e); simpl; [reflexivity | now rewrite <- app_assoc].
Qed.

Lemma time_series_loop_ok_valid wd (fs : list Utils.dir_entry) :
  forall (m0 m : gmap string Utils.series) (ws ws' : list string),
    Utils.time_series_loop wd fs m0 ws = (Ok m, ws') ->
    Forall (fun e => TextIO.utf8_valid (Utils.entry_bytes e) = true) fs.
Proof.
  induction fs as [|e fs IH]; intros m0 m ws ws' Hrun; [constructor |].
  cbn [Utils.time_series_loop] in Hrun. unfold bind in Hrun.
  rewrite load_series_run in Hrun.
  destruct (TextIO.utf8_valid (Utils.entry_bytes e)) eqn:He; [| discriminate].
  constructor; [exact He | now apply (IH _ _ _ _ Hrun)].
Qed.

Lemma stored_all_lookup (fs : list Utils.dir_entry) :
  forall (m0 : gmap string Utils.series) (k : string),
    (Forall (fun e => key_of e <> k) fs -> stored_all fs m0 !! k = m0 !! k) /\
    (forall pre b post,
        fs = (pre ++ b :: post)%list -> key_of b = k ->
        Forall (fun e => key_of e <> k) post ->
        stored_all fs m0 !! k = Some (stored b)).
Proof.
  induction fs as [|e fs IH]; intros m0 k.
  - split; [reflexivity |]. intros [|? ?] b post Heq; discriminate.
  - destruct (IH (<[key_of e := stored e]> m0) k) as [Hkeep Hlast]. split.
    + intros Hall. inversion Hall as [|? ? Hne Hrest]; subst. simpl.
      rewrite (Hkeep Hrest). now apply lookup_insert_ne.
    + intros [|e' pre] b post Heq Hk Hpost; simpl in Heq; injection Heq as <- ->.
      * simpl. rewrite (Hkeep Hpost), <- Hk. apply lookup_insert_eq.
      * simpl. now apply (Hlast pre b post).
Qed.

Lemma stored_all_keys (fs : list Utils.dir_entry) :
  forall (m0 : gmap string Utils.series) (k : string),
    is_Some (stored_all fs m0 !! k)
    <-> is_Some (m0 !! k) \/ Exists (fun e => key_of e = k) fs.
Proof.
  induction fs as [|e fs IH]; intros m0 k; simpl.
  - split; [auto | intros [? | Hex]; [assumption | inversion Hex]].
  - rewrite IH, lookup_insert. case_decide as Hk.
    + split; [intros _; right; now left | intros _; left; eauto].
    + split.
      * intros [? | ?]; [now left | right; now right].
      * intros [? | Hex]; [now left |].
        inversion Hex; subst; [contradiction | now right].
Qed.

End TimeSeriesMore.

(** X1: [process_eplus_time_series] returns whenever every [*.csv] file
    is valid UTF-8, and the only exception that can leave it is the
    [UnicodeDecodeError] of a file that is not. *)
Theorem time_series_outcome `{Pandas} (wd : Utils.directory) (ws : list string) :
  (Forall (fun e => TextIO.utf8_valid (Utils.entry_bytes e) = true)
          (Utils.files_csv wd) ->
   exists m ws', Utils.process_eplus_time_series wd ws = (Ok m, ws')) /\
  (forall x, fst (Utils.process_eplus_time_series wd ws) = Raise x ->
             x = UnicodeDecodeError /\ Exists undecodable (Utils.files_csv wd)).
Proof.
  unfold Utils.process_eplus_time_series. split.
  - intros Hall. rewrite (time_series_loop_total wd _ ∅ ws Hall). eauto.
  - intros x Hx.
    destruct (List.Forall_Exists_dec
                (fun e => TextIO.utf8_valid (Utils.entry_bytes e) = true)
                (fun e => bool_dec _ true) (Utils.files_csv wd)) as [Hall | Hex].
    + rewrite (time_series_loop_total wd _ ∅ ws Hall) in Hx. discriminate.
    + assert (Hbad : Exists undecodable (Utils.files_csv wd)).
      { apply List.Exists_exists in Hex as (e & Hin & He).
        apply List.Exists_exists. exists e. split; [exact Hin |].
        unfold undecodable. now destruct (TextIO.utf8_valid (Utils.entry_bytes e)). }
      split; [| exact Hbad].
      rewrite (time_series_loop_raises wd _ ∅ ws Hbad) in Hx. congruence.
Qed.

(** X2: the keys of the mapping returned are exactly the keys derived
    from the regular files of the directory whose name ends in [.csv];
    sub-directories and other files contribute nothing. *)
Theorem time_series_keys `{Pandas} (wd : Utils.directory) (ws ws' : list string)
    (m : gmap string Utils.series) :
  Utils.process_eplus_time_series wd ws = (Ok m, ws') ->
  forall k : string,
    is_Some (m !! k)
    <-> exists e,
          In e (Utils.dir_entries wd) /\
          Utils.entry_is_file e = true /\
          PyStr.endswith ".csv" (Utils.entry_name e) = true /\
          Utils.series_name (Utils.entry_name e) = k.
Proof.
  intros Hrun k. unfold Utils.process_eplus_time_series in Hrun.
  pose proof (time_series_loop_ok_valid wd _ _ _ _ _ Hrun) as Hall.
  rewrite (time_series_loop_total wd _ ∅ ws Hall) in Hrun.
  injection Hrun as <- _.
  rewrite stored_all_keys, lookup_empty, List.Exists_exists.
  unfold Utils.files_csv, Utils.matches_csv, key_of. split.
  - intros [[? [=]] | (e & Hin & Hk)].
    apply list_elem_of_In, list_elem_of_filter in Hin as [He Hin].
    apply Is_true_true, andb_true_iff in He as [Hf Hc].
    apply list_elem_of_In in Hin. exists e. auto.
  - intros (e & Hin & Hf & Hc & Hk). right. exists e. split; [| exact Hk].
    apply list_elem_of_In, list_elem_of_filter. split.
    + apply Is_true_true. now rewrite Hf, Hc.
    + now apply list_elem_of_In.
Qed.


(** X4: in the mapping returned, the value under a key comes from the
    last file of the listing that derives it: the table when
    [pd.read_csv] returned one, and otherwise the text of the file, in
    which CR LF and CR have become LF. *)
Theorem time_series_values `{Pandas} (wd : Utils.directory)
    (ws ws' : list string) (m : gmap string Utils.series)
    (pre post : list Utils.dir_entry) (b : Utils.dir_entry) :
  Utils.process_eplus_time_series wd ws = (Ok m, ws') ->
  Utils.files_csv wd = (pre ++ b :: post)%list ->
  Forall (fun e => key_of e <> key_of b) post ->
  m !! Utils.series_name (Utils.entry_name b)
  = Some match read_csv (Utils.entry_bytes b) with
         | Ok df => Utils.Table df
         | Raise _ =>
             Utils.RawText (TextIO.universal_newlines (Utils.entry_bytes b))
         end.
Proof.
  intros Hrun Hfiles Hpost. unfold Utils.process_eplus_time_series in Hrun.
  pose proof (time_series_loop_ok_valid wd _ _ _ _ _ Hrun) as Hall.
  rewrite (time_series_loop_total wd _ ∅ ws Hall) in Hrun.
  injection Hrun as <- _.
  destruct (stored_all_lookup (Utils.files_csv wd) ∅ (key_of b)) as [_ Hlast].
  apply (Hlast pre b post Hfiles eq_refl Hpost).
Qed.

(** A parser that takes a text for a table only if it has a comma. *)
Definition comma_pandas : Pandas :=
  {| DataFrame := list (list string);
     csv_table := fun text =>
       if PyStr.contains "," text then SimplePandas.csv_rows text
       else Raise ParserError;
     html_table := SimplePandas.html_rows |}.

Definition csv_good : Utils.dir_entry :=
  {| Utils.entry_name := "eplus.csv"; Utils.entry_is_file := true;
     Utils.entry_bytes := "a,b" ++ String "010" "1,2" |}.

(** The text [x CR LF y CR]: no table for [comma_pandas]. *)
Definition csv_plain : Utils.dir_entry :=
  {| Utils.entry_name := "eplus-plain.csv"; Utils.entry_is_file := true;
     Utils.entry_bytes :=
       String "x" (String "013" (String "010" (String "y" (String "013" "")))) |}.

(** A working directory with a table, a text without comma, a text file
    and a sub-directory named like a CSV file. *)
Definition mixed_dir : Utils.directory :=
  {| Utils.dir_path := "out";
     Utils.dir_entries :=
       [ csv_good; csv_plain;
         {| Utils.entry_name := "notes.txt"; Utils.entry_is_file := true;
            Utils.entry_bytes := "x" |};
         {| Utils.entry_name := "old.csv"; Utils.entry_is_file := false;
            Utils.entry_bytes := "" |} ] |}.

Definition mixed_result : gmap string (Utils.series (H := comma_pandas)) :=
  <["plain" := Utils.RawText (String "x" (String "010" (String "y" (String "010" ""))))]>
    {["eplus" := Utils.Table (H := comma_pandas) [["a"; "b"]; ["1"; "2"]]]}.

Lemma mixed_dir_run :
  Utils.process_eplus_time_series (H := comma_pandas) mixed_dir ["earlier"]
  = (Ok mixed_result,
     ["earlier";
      "Unable to parse csv file out/eplus-plain.csv. Return raw string as fallback."]).
Proof. vm_compute. reflexivity. Qed.

Lemma time_series_keys_witness :
  is_Some (mixed_result !! "plain")
  <-> exists e,
        In e (Utils.dir_entries mixed_dir) /\
        Utils.entry_is_file e = true /\
        PyStr.endswith ".csv" (Utils.entry_name e) = true /\
        Utils.series_name (Utils.entry_name e) = "plain".
Proof.
  exact (time_series_keys (H := comma_pandas) mixed_dir ["earlier"] _
           mixed_result mixed_dir_run "plain").
Defined.


Lemma time_series_values_witness :
  mixed_result !! "plain"
  = Some (Utils.RawText (String "x" (String "010" (String "y" (String "010" ""))))).
Proof.
  apply (time_series_values (H := comma_pandas) mixed_dir ["earlier"] _
           mixed_result [csv_good] [] csv_plain mixed_dir_run).
  - vm_compute. reflexivity.
  - constructor.
Defined.

(** ** The extension of a CSV file *)

Section ExtensionFacts.

Lemma endswith_split (p : string) : forall s : string,
  PyStr.endswith p s = true -> exists base, s = base ++ p.
Proof.
  induction s as [|c s IH]; simpl; intros Hs.
  - rewrite orb_false_r in Hs. apply String.eqb_eq in Hs as ->. now exists "".
  - apply orb_true_iff in Hs as [Hs | Hs].
    + apply String.eqb_eq in Hs as ->. now exists "".
    + destruct (IH Hs) as [base ->]. now exists (String c base).
Qed.

Lemma rfind_char_append (c : ascii) (b : string) (i : nat) :
  PyStr.rfind_char c b = Some i ->
  forall a : string,
    PyStr.rfind_char c (a ++ b) = Some (String.length a + i).
Proof.
  intros Hb. induction a as [|x a IH]; simpl; [exact Hb | now rewrite IH].
Qed.

Lemma substring_prefix (a b : string) :
  substring 0 (String.length a) (a ++ b) = a.
Proof.
  induction a as [|x a IH]; simpl; [now destruct b | now rewrite IH].
Qed.

(** The extension of [base.csv] is cut off, unless [base] is empty or
    made of dots only. *)
Lemma stripext_csv (base : string) :
  PyStr.stripext (base ++ ".csv")
  = if PyStr.all_char "." base then base ++ ".csv" else base.
Proof.
  unfold PyStr.stripext, PyStr.splitext.
  rewrite (rfind_char_append "." ".csv" 0 eq_refl base), Nat.add_0_r.
  rewrite substring_prefix.
  destruct (PyStr.all_char "." base); reflexivity.
Qed.

End ExtensionFacts.

(** X5: a file that [files("*.csv")] lists is named [base.csv], and its
    key is made from [base]; but when [base] is empty or consists of dots
    only, [stripext] removes nothing and the key keeps the [.csv]. *)
Theorem csv_name_key (name : string) :
  PyStr.endswith ".csv" name = true ->
  exists base : string,
    name = base ++ ".csv" /\
    Utils.series_name name
    = Utils.series_key (if PyStr.all_char "." base then name else base).
Proof.
  intros Hname. destruct (endswith_split ".csv" name Hname) as [base ->].
  exists base. split; [reflexivity |].
  unfold Utils.series_name. now rewrite stripext_csv.
Qed.

Lemma csv_name_key_witness :
  exists base : string,
    "..csv" = base ++ ".csv" /\
    Utils.series_name "..csv"
    = Utils.series_key (if PyStr.all_char "." base then "..csv" else base).
Proof. apply (csv_name_key "..csv"). reflexivity. Defined.

(** ** The report marker *)

Section MarkerSearch.

Lemma strip_prefix_is_prefix (p : string) : forall s : string,
  is_Some (strip_prefix p s) <-> String.prefix p s = true.
Proof.
  induction p as [|a p IH]; intros s; simpl.
  - destruct s; split; eauto.
  - destruct s as [|b s]; simpl; [split; [intros [? [=]] | discriminate] |].
    destruct (ascii_dec a b) as [->|Hne].
    + rewrite Ascii.eqb_refl. apply IH.
    + apply Ascii.eqb_neq in Hne. rewrite Hne.
      split; [intros [? [=]] | discriminate].
Qed.

Lemma greedy_star_accepting {A} (P : ascii -> bool) (k : string -> option A) :
  (forall s, is_Some (k s)) -> forall s, is_Some (greedy_star P s k).
Proof.
  intros Hk. induction s as [|c s IH]; simpl; [apply Hk |].
  destruct (P c); [| apply Hk].
  destruct (greedy_star P s k); [eauto | apply Hk].
Qed.

Lemma re_match_section (s : string) :
  is_Some (re_match Utils.re_section s) <-> PyStr.startswith "Report:" s = true.
Proof.
  unfold PyStr.startswith. rewrite <- strip_prefix_is_prefix.
  unfold re_match, Utils.re_section. cbn [exec].
  destruct (strip_prefix "Report:" s) as [s'|]; [| split; intros [? [=]]].
  split; [eauto | intros _].
  apply (greedy_star_accepting _ (fun _ => Some ∅)). eauto.
Qed.

End MarkerSearch.

(** X6: a string is taken for a report marker exactly when it contains
    the text [Report:], wherever that stands and whatever follows it,
    line feeds included. *)
Theorem marker_iff_contains (s : string) :
  is_Some (re_search Utils.re_section s) <-> PyStr.contains "Report:" s = true.
Proof.
  induction s as [|c s IH].
  - cbn [re_search PyStr.contains]. split; [intros [? [=]] | discriminate].
  - cbn [re_search PyStr.contains]. rewrite orb_true_iff, <- IH.
    rewrite <- re_match_section.
    destruct (re_match Utils.re_section (String c s)); split; eauto.
    + intros [[? [=]] | ?]; assumption.
Qed.

(** ** The section name *)

Section StripFacts.

Lemma lstrip_head (s : string) (c : ascii) (r : string) :
  PyStr.lstrip s = String c r -> PyStr.is_space c = false.
Proof.
  induction s as [|a s IH]; simpl; [discriminate |].
  destruct (PyStr.is_space a) eqn:Ha; [exact IH |].
  now intros [= <- _].
Qed.

Lemma rstrip_head (s : string) (c : ascii) (r : string) :
  PyStr.rstrip s = String c r -> exists s', s = String c s'.
Proof.
  destruct s as [|a s]; simpl; [discriminate |].
  destruct (PyStr.rstrip s); [destruct (PyStr.is_space a); [discriminate |] |];
    intros [= <- _]; eauto.
Qed.

Lemma rstrip_last (s : string) : forall (a : string) (c : ascii),
  PyStr.rstrip s = a ++ String c "" -> PyStr.is_space c = false.
Proof.
  induction s as [|x s IH]; intros a c; simpl.
  - destruct a; discriminate.
  - destruct (PyStr.rstrip s) as [|y r] eqn:E.
    + destruct (PyStr.is_space x) eqn:Hx; [destruct a; discriminate |].
      destruct a as [|? [|? ?]]; simpl; intros [=]; congruence.
    + destruct a as [|z a]; simpl; [discriminate |].
      intros [= _ Hr]. now apply (IH a c).
Qed.

Lemma strip_trimmed (t : string) :
  (forall c r, PyStr.strip t = String c r -> PyStr.is_space c = false) /\
  (forall a c, PyStr.strip t = a ++ String c "" -> PyStr.is_space c = false).
Proof.
  unfold PyStr.strip. split.
  - intros c r Hs. apply rstrip_head in Hs as [s' Hs].
    now apply (lstrip_head t c s').
  - intros a c. apply rstrip_last.
Qed.

End StripFacts.

(** X7: a section name is never padded: it neither begins nor ends with
    white space (it may be empty). *)
Theorem section_is_stripped (soup : Soup.node) (table : Soup.path)
    (section : string) :
  Utils.section_of soup table = Ok (Some section) ->
  (forall c r, section = String c r -> PyStr.is_space c = false) /\
  (forall a c, section = a ++ String c "" -> PyStr.is_space c = false).
Proof.
  unfold Utils.section_of, Utils.section_chain, Utils.getattr.
  destruct (Soup.find_previous_text Utils.re_section soup table) as [marker|];
    [| discriminate].
  destruct (Soup.find_next_sibling "b" soup marker) as [b|]; [| discriminate].
  intros [= <-]. apply strip_trimmed.
Qed.

(** A report with its marker, as EnergyPlus writes it, and two tables
    under the same title. *)
Definition annual_report : Soup.node :=
  page [ Soup.Tag "p" [Soup.Text "Report:";
                       Soup.Tag "b" [Soup.Text " Annual Summary "]];
         Soup.Tag "b" [Soup.Text "Site"]; table_of "first";
         Soup.Tag "b" [Soup.Text "Site"]; table_of "second" ].

Lemma section_is_stripped_witness :
  Utils.section_of annual_report [0; 0; 2] = Ok (Some "Annual Summary") /\
  (forall c r, "Annual Summary" = String c r -> PyStr.is_space c = false) /\
  (forall a c, "Annual Summary" = a ++ String c "" -> PyStr.is_space c = false).
Proof.
  assert (Hs : Utils.section_of annual_report [0; 0; 2] = Ok (Some "Annual Summary"))
    by (vm_compute; reflexivity).
  split; [exact Hs |].
  exact (section_is_stripped annual_report [0; 0; 2] "Annual Summary" Hs).
Defined.

(** ** Tables with a section *)

Section SectionedTables.
Context `{Pandas}.













End SectionedTables.






(** * Further properties of the installer manager *)

(** ** What every step leaves alone *)

Section Frame.

(** A computation is [steady] when it keeps the working directory and
    only adds to the record of events. *)
Definition steady {A} (c : M world A) : Prop :=
  forall w, cwd (snd (c w)) = cwd w /\
            exists evs, events (snd (c w)) = (events w ++ evs)%list.

Lemma steady_ret {A} (a : A) : steady (ret a : M world A).
Proof. intros w. split; [reflexivity |]. exists []. simpl. now rewrite app_nil_r. Qed.

Lemma steady_raise {A} (x : exn) : steady (raise x : M world A).
Proof. intros w. split; [reflexivity |]. exists []. simpl. now rewrite app_nil_r. Qed.

Lemma steady_lift {A} (r : result A) : steady (lift r : M world A).
Proof. intros w. split; [reflexivity |]. exists []. simpl. now rewrite app_nil_r. Qed.

Lemma steady_bind {A B} (c : M world A) (k : A -> M world B) :
  steady c -> (forall a, steady (k a)) -> steady (bind c k).
Proof.
  intros Hc Hk w. unfold bind.
  destruct (Hc w) as [Hcwd [evs Hev]]. destruct (c w) as [[a|x] w1]; simpl in *.
  - destruct (Hk a w1) as [Hcwd' [evs' Hev']]. split; [congruence |].
    exists (evs ++ evs')%list. now rewrite Hev', Hev, app_assoc.
  - split; [exact Hcwd | eauto].
Qed.

Lemma steady_finally {A} (c : M world A) (f : M world unit) :
  steady c -> steady f -> steady (finally c f).
Proof.
  intros Hc Hf w. unfold finally.
  destruct (Hc w) as [Hcwd [evs Hev]]. destruct (c w) as [r w1]; simpl in *.
  destruct (Hf w1) as [Hcwd' [evs' Hev']].
  destruct (f w1) as [[[]|x] w2]; simpl in *;
    (split; [congruence |]; exists (evs ++ evs')%list;
     now rewrite Hev', Hev, app_assoc).
Qed.

Lemma steady_log (e : event) : steady (log e).
Proof. intros w. split; [reflexivity |]. now exists [e]. Qed.

(** A step that touches the files only, after one event. *)
Lemma steady_step {A} (c : M world A) (e : event) :
  (forall w, exists r f, c w = (r, set_fs f (add_event e w))) -> steady c.
Proof.
  intros Hc w. destruct (Hc w) as (r & f & ->). split; [reflexivity |].
  now exists [e].
Qed.

(** A step that only looks. *)
Lemma steady_look {A} (c : M world A) :
  (forall w, exists r, c w = (r, w)) -> steady c.
Proof.
  intros Hc w. destruct (Hc w) as (r & ->). split; [reflexivity |].
  exists []. simpl. now rewrite app_nil_r.
Qed.

Lemma steady_exists (p : Path) : steady (exists_ p).
Proof. apply steady_look. intros w. unfold exists_. eauto. Qed.

Lemma steady_glob (p : Path) : steady (glob_star p).
Proof. apply steady_look. intros w. unfold glob_star. eauto. Qed.

Lemma steady_absolute (p : Path) : steady (absolute p).
Proof. apply steady_look. intros w. unfold absolute. eauto. Qed.

Lemma steady_getitem (g : groups) (k : string) : steady (getitem g k).
Proof. unfold getitem. destruct (g !! k); [apply steady_ret | apply steady_raise]. Qed.

Lemma steady_mkdir (p : Path) : steady (mkdir p).
Proof.
  intros w. unfold mkdir.
  destruct (mkdir_go [] (resolve w p) (fs w)); simpl;
    (split; [reflexivity | now exists [Mkdir (resolve w p)]]).
Qed.

Lemma steady_rmtree (p : Path) : steady (rmtree p).
Proof. intros w. split; [reflexivity |]. now exists [Rmtree (resolve w p)]. Qed.

Lemma steady_write (p : Path) (data : string) : steady (write_bytes p data).
Proof.
  intros w. unfold write_bytes.
  destruct (open_parents [] (resolve w p) (fs w)) as [[]|e];
    [destruct (is_dir (fs w) (resolve w p)) |]; simpl;
    (split; [reflexivity | now exists [WriteFile (resolve w p)]]).
Qed.

Lemma steady_head (url : string) : steady (head_content_type_of url).
Proof. intros w. split; [reflexivity |]. now exists [Head url]. Qed.

Lemma steady_get (url : string) : steady (get_content url).
Proof. intros w. split; [reflexivity |]. now exists [Get url]. Qed.

Lemma steady_expect (pat : pattern) : steady (expect pat).
Proof.
  intros w. unfold expect.
  destruct (expect_reply w (events w) pat); [destruct pat |]; simpl;
    (split; [reflexivity | eexists; reflexivity]).
Qed.

Lemma steady_is_downloadable (url : string) : steady (_is_downloadable url).
Proof.
  unfold _is_downloadable. apply steady_bind; [apply steady_head |].
  intros [c|]; [| apply steady_ret].
  destruct (PyStr.contains "text" (PyStr.lower c)); [apply steady_ret |].
  destruct (PyStr.contains "html" (PyStr.lower c)); apply steady_ret.
Qed.

Lemma steady_download (url : string) (path : Path) :
  steady (_download_eplus_version url path).
Proof.
  unfold _download_eplus_version.
  apply steady_bind; [apply steady_is_downloadable |].
  intros ok. destruct (negb ok); [apply steady_raise |].
  apply steady_bind; [apply steady_get | intros body; apply steady_write].
Qed.

Lemma steady_install (setup_script eplus_folder : string) :
  steady (_extract_and_install setup_script eplus_folder).
Proof.
  unfold _extract_and_install, with_spawn, sendline.
  apply steady_bind; [apply steady_log | intros _].
  apply steady_finally; [| apply steady_log].
  repeat (apply steady_bind; [apply steady_expect || apply steady_log | intros _]).
  apply steady_expect.
Qed.

Lemma steady_url_to_installed (url : string) (eplus_folder script_path : Path) :
  steady (url_to_installed url eplus_folder script_path).
Proof.
  unfold url_to_installed.
  apply steady_bind; [apply steady_exists | intros there].
  apply steady_bind; [| intros _; apply steady_install].
  destruct (negb there); [apply steady_download | apply steady_ret].
Qed.

Lemma steady_temp_dir {A} (body : string -> M world A) :
  (forall d, steady (body d)) -> steady (with_temp_dir body).
Proof.
  intros Hb w. unfold with_temp_dir, finally, modify.
  match goal with
  | |- context [body ?d ?w0] =>
      destruct (Hb d w0) as [Hcwd [evs Hev]]; destruct (body d w0) as [r w1]
  end.
  simpl in *. split; [exact Hcwd |].
  exists ([MkTemp (tmp_dir w)] ++ evs ++ [RmTemp (tmp_dir w)])%list.
  rewrite Hev. now rewrite <- !app_assoc.
Qed.

Lemma steady_lock {A} (p : Path) (body : M world A) :
  steady body -> steady (with_lock p body).
Proof.
  intros Hb w. unfold with_lock.
  match goal with
  | |- context [finally body ?f ?w0] =>
      destruct (steady_finally body f Hb (steady_log _) w0) as [Hcwd [evs Hev]];
      destruct (finally body f w0) as [r w1]
  end.
  simpl in *. split; [exact Hcwd |].
  exists ([LockAcquire (resolve w p)] ++ evs)%list.
  rewrite Hev. now rewrite <- !app_assoc.
Qed.

(** The installation proper: what follows a failed look at the expected
    directory. *)
Lemma steady_installation (url : string) (eplus_folder : Path)
    (installer_cache : option Path) (filename : string) :
  steady (match installer_cache with
          | None =>
              with_temp_dir
                (fun d => url_to_installed url eplus_folder
                            (joinpath (path_of_string d) filename))
          | Some installer_cache =>
              run mkdir installer_cache;
              url_to_installed url eplus_folder (joinpath installer_cache filename)
          end).
Proof.
  destruct installer_cache as [c|].
  - apply steady_bind; [apply steady_mkdir | intros _; apply steady_url_to_installed].
  - apply steady_temp_dir. intros d. apply steady_url_to_installed.
Qed.

Lemma steady_locked_section (url : string) (eplus_folder : Path)
    (installer_cache : option Path) :
  steady (locked_section url eplus_folder installer_cache).
Proof.
  unfold locked_section, py_and.
  apply steady_bind; [apply steady_lift | intros finfo].
  apply steady_bind; [apply steady_getitem | intros filename].
  apply steady_bind; [apply steady_getitem | intros version].
  apply steady_bind.
  { apply steady_bind.
    - apply steady_bind; [apply steady_exists | intros there; apply steady_ret].
    - intros x. destruct (truthy x); [apply steady_glob | apply steady_ret]. }
  intros cond. destruct (truthy cond); [apply steady_absolute |].
  apply steady_bind; [apply steady_rmtree | intros _].
  apply steady_bind; [apply steady_installation | intros _; apply steady_absolute].
Qed.

Lemma resolve_cwd (w1 w2 : world) (p : Path) :
  cwd w1 = cwd w2 -> resolve w1 p = resolve w2 p.
Proof. unfold resolve. now intros ->. Qed.

End Frame.

(** ** The run of [ensure_eplus_root] *)

Section RunFacts.

Lemma extract_ok (url : string) (g : groups) :
  _extract_filename_info url = Ok g ->
  exists filename version revision platform,
    names_installer url filename version revision platform /\
    g = info filename version revision platform.
Proof.
  unfold _extract_filename_info. pose proof (re_match_filename url) as Hm.
  destruct (re_match eplus_filename_pattern url) as [g'|]; [| discriminate].
  now intros [= <-].
Qed.

Lemma fst_bind_ok {W A B} (c : M W A) (k : A -> M W B) (w : W) (b : B) :
  fst (bind c k w) = Ok b ->
  exists a w1, c w = (Ok a, w1) /\ fst (k a w1) = Ok b.
Proof.
  unfold bind. destruct (c w) as [[a|x] w1]; [eauto | discriminate].
Qed.

(** What the locked section returns, when it returns. *)
Lemma locked_section_result (url : string) (eplus_folder : Path)
    (installer_cache : option Path) (w : world) (p : Path) :
  fst (locked_section url eplus_folder installer_cache w) = Ok p ->
  exists filename version revision platform,
    _extract_filename_info url = Ok (info filename version revision platform) /\
    p = {| is_absolute := true;
           parts := resolve w (expected_folder eplus_folder version) |}.
Proof.
  unfold locked_section. intros Hrun.
  apply fst_bind_ok in Hrun as (g & w1 & Hg & Hrun).
  unfold lift in Hg. injection Hg as Hg <-.
  destruct (extract_ok url g Hg) as (f & v & r & pl & _ & ->).
  exists f, v, r, pl. split; [exact Hg |].
  unfold getitem at 1 in Hrun. rewrite info_filename in Hrun.
  apply fst_bind_ok in Hrun as (f' & w1 & [= <- <-] & Hrun).
  unfold getitem at 1 in Hrun. rewrite info_version in Hrun.
  apply fst_bind_ok in Hrun as (v' & w1 & [= <- <-] & Hrun).
  cbv zeta in Hrun.
  apply fst_bind_ok in Hrun as (cond & w1 & Hcond & Hrun).
  assert (w1 = w) as ->.
  { unfold py_and, bind, exists_, ret, glob_star in Hcond.
    destruct (truthy _) in Hcond; now injection Hcond. }
  destruct (truthy cond).
  - unfold absolute in Hrun. now injection Hrun as <-.
  - apply fst_bind_ok in Hrun as ([] & w1 & Hrm & Hrun).
    apply fst_bind_ok in Hrun as ([] & w2 & Hinst & Hrun).
    unfold absolute in Hrun. injection Hrun as <-. f_equal.
    apply resolve_cwd.
    pose proof (steady_installation url eplus_folder installer_cache f w1) as [H2 _].
    rewrite Hinst in H2. simpl in H2. rewrite H2.
    pose proof (steady_rmtree (expected_folder eplus_folder v) w) as [H1 _].
    rewrite Hrm in H1. exact H1.
Qed.

(** What the child process was asked (the events of the session). *)
Lemma install_events (setup_script eplus_folder : string) (w : world) :
  exists n : nat,
    events (snd (_extract_and_install setup_script eplus_folder w))
    = (events w ++ Spawn ("bash " ++ setup_script)
         :: firstn n (dialogue eplus_folder) ++ [Close])%list.
Proof.
  unfold _extract_and_install, with_spawn, finally, bind, log, modify, expect,
    sendline. cbn.
  destruct (expect_reply w _ CRLF) as [[]|x1]; cbn;
    [| exists 1; rewrite <- !app_assoc; reflexivity].
  destruct (expect_reply w _ CRLF) as [[]|x2]; cbn;
    [| exists 4; rewrite <- !app_assoc; reflexivity].
  destruct (expect_reply w _ EOF) as [[]|x3]; cbn;
    exists 6; rewrite <- !app_assoc; reflexivity.
Qed.

End RunFacts.

(** X10: on Linux, an (ASCII) URL that the installer pattern does not
    match is refused with the [ValueError] only after the target folder
    has been made and the lock taken: both stay behind (the folder, and
    the lock file inside it), the lock is released, and nothing else has
    happened. *)
Theorem invalid_url_fails_after_setup
    (url : string) (eplus_folder : Path) (installer_cache : option Path)
    (w : world) (made : fs_t) :
  platform_system w = "Linux" ->
  mkdir_go [] (resolve w eplus_folder) (fs w) = Ok made ->
  is_ascii url = true ->
  re_match eplus_filename_pattern url = None ->
  fst (ensure_eplus_root url eplus_folder installer_cache w)
  = Raise (ValueError "URL does not match the EnergyPlus filename pattern.") /\
  events (snd (ensure_eplus_root url eplus_folder installer_cache w))
  = (events w ++ [Mkdir (resolve w eplus_folder);
                  LockAcquire (resolve w (joinpath eplus_folder ".lock"));
                  LockRelease (resolve w (joinpath eplus_folder ".lock"))])%list /\
  fs (snd (ensure_eplus_root url eplus_folder installer_cache w))
  = match made !! resolve w (joinpath eplus_folder ".lock") with
    | None => <[resolve w (joinpath eplus_folder ".lock") := File ""]> made
    | Some _ => made
    end.
Proof.
  intros Hsys Hmk _ Hurl.
  rewrite (ensure_eplus_root_on_linux url eplus_folder installer_cache w made Hsys Hmk).
  unfold finally, locked_section, bind at 1, lift, _extract_filename_info.
  rewrite Hurl.
  split; [reflexivity |]. split; [| reflexivity].
  cbn. now rewrite <- !app_assoc.
Qed.

Lemma invalid_url_fails_after_setup_witness :
  fst (ensure_eplus_root "https://energyplus.net/downloads"
         (path_of_string "/opt/eplus") None
         (linux_host ∅ (Some "text/html")))
  = Raise (ValueError "URL does not match the EnergyPlus filename pattern.") /\
  events (snd (ensure_eplus_root "https://energyplus.net/downloads"
                 (path_of_string "/opt/eplus") None
                 (linux_host ∅ (Some "text/html"))))
  = [Mkdir ["opt"; "eplus"]; LockAcquire ["opt"; "eplus"; ".lock"];
     LockRelease ["opt"; "eplus"; ".lock"]] /\
  fs (snd (ensure_eplus_root "https://energyplus.net/downloads"
             (path_of_string "/opt/eplus") None
             (linux_host ∅ (Some "text/html"))))
  = <[["opt"; "eplus"; ".lock"] := File ""]>
      (<[["opt"; "eplus"] := Dir]> {[ ["opt"] := Dir ]}).
Proof.
  destruct (invalid_url_fails_after_setup "https://energyplus.net/downloads"
              (path_of_string "/opt/eplus") None (linux_host ∅ (Some "text/html"))
              (<[["opt"; "eplus"] := Dir]> {[ ["opt"] := Dir ]}))
    as (Hres & Hev & Hfs).
  - reflexivity.
  - vm_compute. reflexivity.
  - vm_compute. reflexivity.
  - vm_compute. reflexivity.
  - split; [exact Hres |]. split; [exact Hev |].
    rewrite Hfs. vm_compute. reflexivity.
Defined.

(** X11: on Linux the lock is taken right after the target folder is
    made and its release is the last thing that happens, whether the
    installation returns or raises; when the folder cannot be made, the
    call raises before any lock is taken. *)
Theorem lock_is_released_last
    (url : string) (eplus_folder : Path) (installer_cache : option Path)
    (w : world) :
  platform_system w = "Linux" ->
  match mkdir_go [] (resolve w eplus_folder) (fs w) with
  | Ok _ =>
      exists evs,
        events (snd (ensure_eplus_root url eplus_folder installer_cache w))
        = (events w
           ++ [Mkdir (resolve w eplus_folder);
               LockAcquire (resolve w (joinpath eplus_folder ".lock"))]
           ++ evs
           ++ [LockRelease (resolve w (joinpath eplus_folder ".lock"))])%list
  | Raise x =>
      ensure_eplus_root url eplus_folder installer_cache w
      = (Raise x, add_event (Mkdir (resolve w eplus_folder)) w)
  end.
Proof.
  intros Hsys.
  destruct (mkdir_go [] (resolve w eplus_folder) (fs w)) as [made|x] eqn:Hmk.
  - rewrite (ensure_eplus_root_on_linux url eplus_folder installer_cache w made Hsys Hmk).
    unfold finally, log, modify.
    match goal with
    | |- context [locked_section _ _ _ ?w0] =>
        destruct (steady_locked_section url eplus_folder installer_cache w0)
          as [_ [evs Hev]];
        destruct (locked_section url eplus_folder installer_cache w0) as [r w1]
    end.
    exists evs. simpl in *. rewrite Hev. now rewrite <- !app_assoc.
  - cbv beta iota delta [ensure_eplus_root bind get]. rewrite Hsys.
    change (negb (String.eqb "Linux" "Linux")) with false.
    cbv beta iota delta [mkdir]. now rewrite Hmk.
Qed.

Lemma lock_is_released_last_witness :
  exists evs,
    events (snd (ensure_eplus_root release_url (path_of_string "/opt/eplus") None
                   (linux_host ∅ (Some "text/html"))))
    = ([] ++ [Mkdir ["opt"; "eplus"]; LockAcquire ["opt"; "eplus"; ".lock"]]
       ++ evs ++ [LockRelease ["opt"; "eplus"; ".lock"]])%list.
Proof.
  exact (lock_is_released_last release_url (path_of_string "/opt/eplus") None
           (linux_host ∅ (Some "text/html")) eq_refl).
Defined.

(** X12: an installer script that is already at its place in the cache
    is run as it is: nothing is asked from the network, the events are
    those of the installer's session alone. *)
Theorem cached_installer_skips_network
    (url : string) (eplus_folder script_path : Path) (w : world) :
  present (fs w) (resolve w script_path) = true ->
  exists n : nat,
    events (snd (url_to_installed url eplus_folder script_path w))
    = (events w ++ Spawn ("bash " ++ str_of_path script_path)
         :: firstn n (dialogue (str_of_path eplus_folder)) ++ [Close])%list.
Proof.
  intros Hthere. unfold url_to_installed, bind, exists_. rewrite Hthere.
  cbn [negb ret]. apply install_events.
Qed.

Lemma cached_installer_skips_network_witness :
  exists n : nat,
    events (snd (url_to_installed release_url (path_of_string "/opt/eplus")
                   (path_of_string "/cache/setup.sh")
                   (linux_host {[ ["cache"] := Dir;
                                  ["cache"; "setup.sh"] := File "#!/bin/sh" ]}
                               None)))
    = ([] ++ Spawn "bash /cache/setup.sh"
          :: firstn n (dialogue "/opt/eplus") ++ [Close])%list.
Proof.
  apply (cached_installer_skips_network release_url (path_of_string "/opt/eplus")
           (path_of_string "/cache/setup.sh")
           (linux_host {[ ["cache"] := Dir;
                          ["cache"; "setup.sh"] := File "#!/bin/sh" ]} None)).
  vm_compute. reflexivity.
Defined.

(** X13: whenever [ensure_eplus_root] returns for an (ASCII) URL, the
    pattern has matched the URL and the path returned is absolute: it is
    the target folder, taken from the working directory of the call when
    it is relative, followed by [EnergyPlus-] and the [version] field of
    that match with its dots turned into dashes.  Whether that directory
    exists after the installation is not looked at. *)
Theorem ensure_returns_expected_folder
    (url : string) (eplus_folder : Path) (installer_cache : option Path)
    (w : world) (p : Path) :
  is_ascii url = true ->
  fst (ensure_eplus_root url eplus_folder installer_cache w) = Ok p ->
  exists filename version revision platform,
    _extract_filename_info url = Ok (info filename version revision platform) /\
    p = {| is_absolute := true;
           parts := resolve w (expected_folder eplus_folder version) |}.
Proof.
  intros _ Hrun. unfold ensure_eplus_root in Hrun.
  apply fst_bind_ok in Hrun as (w' & w1 & [= <- <-] & Hrun).
  destruct (negb (String.eqb (platform_system w) "Linux")); [discriminate |].
  apply fst_bind_ok in Hrun as ([] & w1 & Hmk & Hrun).
  pose proof (steady_mkdir eplus_folder w) as [Hcwd _]. rewrite Hmk in Hcwd.
  simpl in Hcwd. unfold with_lock, finally in Hrun.
  match type of Hrun with
  | context [locked_section _ _ _ ?w0] =>
      pose proof (locked_section_result url eplus_folder installer_cache w0) as Hres;
      destruct (locked_section url eplus_folder installer_cache w0) as [r w2]
  end.
  simpl in Hrun. subst r.
  destruct (Hres p eq_refl) as (f & v & rv & pl & Hn & ->).
  exists f, v, rv, pl. split; [exact Hn |]. f_equal.
  apply resolve_cwd. exact Hcwd.
Qed.

(** A host whose installer answers every prompt and writes nothing: the
    path is returned and the directory is not there. *)
Lemma ensure_returns_expected_folder_witness :
  present (fs (snd (ensure_eplus_root release_url (path_of_string "eplus") None
                      (linux_host {[ ["tmp"] := Dir ]} (Some "application/x-sh")))))
          ["home"; "user"; "eplus"; "EnergyPlus-9-4-0"] = false /\
  exists filename version revision platform,
    _extract_filename_info release_url
    = Ok (info filename version revision platform) /\
    {| is_absolute := true;
       parts := ["home"; "user"; "eplus"; "EnergyPlus-9-4-0"] |}
    = {| is_absolute := true;
         parts := resolve (linux_host {[ ["tmp"] := Dir ]} (Some "application/x-sh"))
                    (expected_folder (path_of_string "eplus") version) |}.
Proof.
  split; [vm_compute; reflexivity |].
  apply (ensure_returns_expected_folder release_url (path_of_string "eplus") None
           (linux_host {[ ["tmp"] := Dir ]} (Some "application/x-sh"))).
  - vm_compute. reflexivity.
  - vm_compute. reflexivity.
Defined.

Section OpenFacts.

Lemma open_parents_ok (todo : list string) :
  forall (done : list string) (f : fs_t),
    (forall i, 0 < i < length todo -> f !! (done ++ take i todo)%list = Some Dir) ->
    open_parents done todo f = Ok tt.
Proof.
  induction todo as [|c todo IH]; intros done f Hdirs; [reflexivity |].
  destruct todo as [|c' todo]; [reflexivity |].
  cbn [open_parents].
  assert (H1 : f !! (done ++ [c])%list = Some Dir) by (apply (Hdirs 1); simpl; lia).
  rewrite H1.
  apply IH. intros i Hi. rewrite <- app_assoc. apply (Hdirs (S i)). simpl in *. lia.
Qed.

(** With the directories above it in place, the directory of the file
    decides. *)
Lemma open_parents_parent (parent : list string) :
  forall (done : list string) (f : fs_t) (c : string),
    parent <> [] ->
    (forall i, 0 < i < length parent ->
               f !! (done ++ take i parent)%list = Some Dir) ->
    open_parents done (parent ++ [c]) f
    = match f !! (done ++ parent)%list with
      | Some Dir => Ok tt
      | Some (File _) => Raise NotADirectoryError
      | None => Raise FileNotFoundError
      end.
Proof.
  induction parent as [|p parent IH]; intros done f c Hne Hdirs; [congruence |].
  destruct parent as [|p2 parent].
  - cbn [app open_parents]. now destruct (f !! (done ++ [p])%list) as [[|bytes]|].
  - change ((p :: p2 :: parent) ++ [c])%list with (p :: (p2 :: parent) ++ [c])%list.
    cbn [open_parents].
    change ((p2 :: parent) ++ [c])%list with (p2 :: parent ++ [c])%list.
    cbv iota.
    assert (H1 : f !! (done ++ [p])%list = Some Dir) by (apply (Hdirs 1); simpl; lia).
    rewrite H1.
    change (p2 :: parent ++ [c])%list with ((p2 :: parent) ++ [c])%list.
    rewrite (IH (done ++ [p])%list f c) by
      (discriminate ||
       (intros i Hi; rewrite <- app_assoc; apply (Hdirs (S i)); simpl in *; lia)).
    now rewrite <- app_assoc.
Qed.

End OpenFacts.

(** X14: when the check of the content type passes and every directory
    on the way to the path exists, the body of the GET response is
    written at the path, in place of a file that was there, and no other
    entry changes.  When the directory of the path is missing the call
    raises [FileNotFoundError], and when it is a regular file
    [NotADirectoryError]: in both cases after both requests were made,
    and nothing is written. *)
Theorem download_stores_body (url : string) (path : Path) (w : world) :
  refused (head_content_type w url) = false ->
  ((forall i, 0 < i < length (resolve w path) ->
              fs w !! take i (resolve w path) = Some Dir) ->
   is_dir (fs w) (resolve w path) = false ->
   fst (_download_eplus_version url path w) = Ok tt /\
   fs (snd (_download_eplus_version url path w))
   = <[resolve w path := File (get_body w url)]> (fs w)) /\
  (forall (parent : list string) (c : string),
      resolve w path = (parent ++ [c])%list -> parent <> [] ->
      (forall i, 0 < i < length parent -> fs w !! take i parent = Some Dir) ->
      is_dir (fs w) parent = false ->
      fst (_download_eplus_version url path w)
      = Raise match fs w !! parent with
              | Some _ => NotADirectoryError
              | None => FileNotFoundError
              end /\
      fs (snd (_download_eplus_version url path w)) = fs w /\
      events (snd (_download_eplus_version url path w))
      = (events w ++ [Head url; Get url; WriteFile (resolve w path)])%list).
Proof.
  intros Hok. rewrite download_run, Hok. unfold write_bytes.
  change (resolve (add_event (Get url) (add_event (Head url) w)) path)
    with (resolve w path).
  change (fs (add_event (Get url) (add_event (Head url) w))) with (fs w).
  split.
  - intros Hdirs Hfile.
    rewrite (open_parents_ok (resolve w path) [] (fs w) Hdirs), Hfile.
    split; reflexivity.
  - intros parent c Hpath Hne Hdirs Hparent. rewrite Hpath.
    rewrite (open_parents_parent parent [] (fs w) c Hne Hdirs).
    cbn [app]. unfold is_dir in Hparent.
    destruct parent as [|p parent]; [congruence |].
    destruct (fs w !! (p :: parent)) as [[|bytes]|]; [discriminate | |];
      (split; [reflexivity |]; split; [reflexivity |];
       cbn; now rewrite <- !app_assoc).
Qed.

Lemma download_stores_body_witness :
  fst (_download_eplus_version release_url (path_of_string "/cache/setup.sh")
         (linux_host {[ ["cache"] := Dir ]} (Some "application/x-sh")))
  = Ok tt /\
  fs (snd (_download_eplus_version release_url (path_of_string "/cache/setup.sh")
             (linux_host {[ ["cache"] := Dir ]} (Some "application/x-sh"))))
  = <[["cache"; "setup.sh"] := File "#!/bin/sh"]> {[ ["cache"] := Dir ]}.
Proof.
  destruct (download_stores_body release_url (path_of_string "/cache/setup.sh")
              (linux_host {[ ["cache"] := Dir ]} (Some "application/x-sh")))
    as [Hthere _].
  - reflexivity.
  - apply Hthere.
    + intros [|[|i]] Hi; [simpl in Hi; lia | vm_compute; reflexivity | simpl in Hi; lia].
    + vm_compute. reflexivity.
Defined.
